(** * AI Job Finder: the search session, the reveal loop, pagination and
      the saved-jobs store

    A shallow embedding of [App.tsx] (state, handlers and the asynchronous
    [fetchJobs]), of the [Pagination] component, of [findJobs] of the
    Gemini service and of the submit guard of [SearchBar], followed by the
    properties established about them. *)

From stdpp Require Import base numbers list strings pretty.
From Stdlib Require Import Ascii.

Local Open Scope Z_scope.
Set Warnings "-register-all".

(** ** JavaScript primitives used by the application *)

Module JS.

(** [Array.prototype.slice(start, end)] on integer arguments: a negative
    index counts from the end of the array, both indices are clipped to
    the array bounds, and the result is empty when the clipped end does
    not exceed the clipped start. *)
Definition relative_index (len i : Z) : Z :=
  if i <? 0 then Z.max (len + i) 0 else Z.min i len.

Definition slice {A : Type} (start end_ : Z) (arr : list A) : list A :=
  let len := Z.of_nat (length arr) in
  let k := relative_index len start in
  let final := relative_index len end_ in
  take (Z.to_nat (final - k)) (drop (Z.to_nat k) arr).

(** [Math.ceil(a / b)] for an integer [a] and a positive integer [b]. The
    quotient of two array-sized integers is rounded correctly by the
    floating-point division, so that its ceiling is the integer ceiling
    of the exact quotient. *)
Definition Math_ceil_div (a b : Z) : Z := - ((- a) / b).

(** [x || null] on a value that is a string or [undefined]: the empty
    string is falsy as well. *)
Definition or_null (x : option string) : option string :=
  match x with
  | Some s => if decide (s = "") then None else Some s
  | None => None
  end.

(** What a [throw] carries: an [Error] object with its message, or any
    other value. *)
Inductive Thrown : Type :=
| ErrorObj (message : string)
| OtherValue.

(** A settled promise, also used for the completion of a [try] block. *)
Inductive Settled (A : Type) : Type :=
| Fulfilled (v : A)
| Rejected (e : Thrown).
Global Arguments Fulfilled {A} v.
Global Arguments Rejected {A} e.

(** Truthiness of a value that is a string or [null]: the empty string
    is falsy as well. *)
Definition truthy (x : option string) : bool :=
  match x with
  | Some s => negb (bool_decide (s = ""))
  | None => false
  end.

(** [hay.includes(needle)]. *)
Fixpoint includes (needle hay : string) : bool :=
  if String.prefix needle hay then true
  else match hay with
       | String _ rest => includes needle rest
       | EmptyString => false
       end.

(** [s.split(sep)] for a separator of one character: the pieces between
    the separators, in order; a text without separator is its only piece. *)
Fixpoint split (sep : ascii) (s : string) : list string :=
  match s with
  | EmptyString => [EmptyString]
  | String c rest =>
      if Ascii.eqb c sep then EmptyString :: split sep rest
      else match split sep rest with
           | piece :: pieces => String c piece :: pieces
           | [] => [String c EmptyString]
           end
  end.

(** The line feed written [\n] in a JavaScript string. *)
Definition newline : string := String (ascii_of_nat 10) EmptyString.

(** [error instanceof Error ? error.message : fallback]. *)
Definition message_or (fallback : string) (error : Thrown) : string :=
  match error with
  | ErrorObj message => message
  | OtherValue => fallback
  end.

End JS.

(** ** types.ts *)

Module Types.

(** [export interface Job]. The field [type] is declared as the union of
    the four employment kinds; at run time it is whatever string the
    service or the store delivered, hence a string here. [salaryRange] is
    optional. *)
Record Job : Type := mkJob {
  id : string;
  title : string;
  company : string;
  location : string;
  type : string;
  description : string;
  skills : list string;
  salaryRange : option string
}.

(** [export interface SearchFilters]: the six fields that [SearchBar]
    submits. *)
Record SearchFilters : Type := mkFilters {
  query : string;
  f_location : string;
  f_type : string;
  salary : string;
  workLocation : string;
  industry : string
}.

(** [enum InsightType]. *)
Inductive InsightType : Type := SUMMARY | SKILLS | COVER_LETTER.

#[global] Instance InsightType_eq_dec : EqDecision InsightType.
Proof. solve_decision. Defined.

End Types.

(** ** Pagination.tsx *)

Module Pagination.

(** [handlePrevious]: the page handed to [onPageChange], if it is called. *)
Definition handlePrevious (currentPage : Z) : option Z :=
  if 1 <? currentPage then Some (currentPage - 1) else None.

(** [handleNext]. *)
Definition handleNext (currentPage totalPages : Z) : option Z :=
  if currentPage <? totalPages then Some (currentPage + 1) else None.

(** [for (let i = 1; i <= totalPages; i++) pageNumbers.push(i)]. *)
Definition pageNumbers (totalPages : Z) : list Z :=
  seqZ 1 totalPages.

(** Every argument with which the rendered component can call
    [onPageChange]: nothing is rendered when [totalPages <= 1]. *)
Definition onPageChange_calls (currentPage totalPages : Z) : list Z :=
  if totalPages <=? 1 then []
  else option_list (handlePrevious currentPage)
         ++ pageNumbers totalPages
         ++ option_list (handleNext currentPage totalPages).

End Pagination.

(** ** App.tsx: state and synchronous handlers *)

Module App.
Import JS Types.

Definition JOBS_PER_PAGE : Z := 9.

Definition JOB_SOURCES : list string :=
  ["LinkedIn"; "Indeed"; "Glassdoor"; "Wellfound"; "Google Careers"].

Inductive View : Type := search | saved.

Record ScrapingStatus : Type := mkStatus {
  completed : list string;
  current : option string
}.

Record State : Type := mkState {
  jobs : list Job;
  savedJobs : list Job;
  selectedJob : option Job;
  isLoading : bool;
  error : option string;
  filters : SearchFilters;
  activeView : View;
  isAddJobModalOpen : bool;
  scrapingStatus : ScrapingStatus;
  currentPage : Z
}.

(** The state of the first render, given what the initializer of
    [savedJobs] produced. *)
Definition initial (loaded : list Job) : State :=
  {| jobs := []; savedJobs := loaded; selectedJob := None;
     isLoading := true; error := None;
     filters := mkFilters "AI Engineer" "Remote" "Full-time" "" "" "";
     activeView := search; isAddJobModalOpen := false;
     scrapingStatus := mkStatus [] None;
     currentPage := 1 |}.

(** The state setters; each takes an updater of the previous value, as
    the functional form of a React setter does. *)
Definition setJobs (f : list Job → list Job) (st : State) : State :=
  mkState (f (jobs st)) (savedJobs st) (selectedJob st) (isLoading st)
    (error st) (filters st) (activeView st) (isAddJobModalOpen st)
    (scrapingStatus st) (currentPage st).

Definition setSavedJobs (f : list Job → list Job) (st : State) : State :=
  mkState (jobs st) (f (savedJobs st)) (selectedJob st) (isLoading st)
    (error st) (filters st) (activeView st) (isAddJobModalOpen st)
    (scrapingStatus st) (currentPage st).

Definition setIsLoading (b : bool) (st : State) : State :=
  mkState (jobs st) (savedJobs st) (selectedJob st) b
    (error st) (filters st) (activeView st) (isAddJobModalOpen st)
    (scrapingStatus st) (currentPage st).

Definition setError (e : option string) (st : State) : State :=
  mkState (jobs st) (savedJobs st) (selectedJob st) (isLoading st)
    e (filters st) (activeView st) (isAddJobModalOpen st)
    (scrapingStatus st) (currentPage st).

Definition setFilters (f : SearchFilters) (st : State) : State :=
  mkState (jobs st) (savedJobs st) (selectedJob st) (isLoading st)
    (error st) f (activeView st) (isAddJobModalOpen st)
    (scrapingStatus st) (currentPage st).

Definition setActiveView (v : View) (st : State) : State :=
  mkState (jobs st) (savedJobs st) (selectedJob st) (isLoading st)
    (error st) (filters st) v (isAddJobModalOpen st)
    (scrapingStatus st) (currentPage st).

Definition setScrapingStatus (f : ScrapingStatus → ScrapingStatus)
    (st : State) : State :=
  mkState (jobs st) (savedJobs st) (selectedJob st) (isLoading st)
    (error st) (filters st) (activeView st) (isAddJobModalOpen st)
    (f (scrapingStatus st)) (currentPage st).

Definition setCurrentPage (p : Z) (st : State) : State :=
  mkState (jobs st) (savedJobs st) (selectedJob st) (isLoading st)
    (error st) (filters st) (activeView st) (isAddJobModalOpen st)
    (scrapingStatus st) p.

(** *** The saved-jobs store *)

(** The updater passed to [setSavedJobs] by [handleSaveJob]. *)
Definition save_updater (jobToSave : Job) (prev : list Job) : list Job :=
  match list_find (λ job, id job = id jobToSave) prev with
  | Some _ => prev
  | None => prev ++ [jobToSave]
  end.

Definition handleSaveJob (jobToSave : Job) : State → State :=
  setSavedJobs (save_updater jobToSave).

(** The updater passed to [setSavedJobs] by [handleUnsaveJob]. *)
Definition unsave_updater (jobId : string) (prev : list Job) : list Job :=
  filter (λ job, id job ≠ jobId) prev.

Definition handleUnsaveJob (jobId : string) : State → State :=
  setSavedJobs (unsave_updater jobId).

Definition isJobSaved (jobId : string) (st : State) : bool :=
  existsb (λ job, bool_decide (id job = jobId)) (savedJobs st).

(** *** Views and pagination *)

Definition handleViewChange (view : View) (st : State) : State :=
  setCurrentPage 1 (setActiveView view st).

Definition handlePageChange (page : Z) (st : State) : State :=
  setCurrentPage page st.

Definition jobsToDisplay (st : State) : list Job :=
  match activeView st with
  | search => jobs st
  | saved => savedJobs st
  end.

Definition totalPages (st : State) : Z :=
  Math_ceil_div (Z.of_nat (length (jobsToDisplay st))) JOBS_PER_PAGE.

Definition indexOfLastJob (st : State) : Z := currentPage st * JOBS_PER_PAGE.

Definition indexOfFirstJob (st : State) : Z :=
  indexOfLastJob st - JOBS_PER_PAGE.

Definition currentJobsOnPage (st : State) : list Job :=
  slice (indexOfFirstJob st) (indexOfLastJob st) (jobsToDisplay st).

(** *** fetchJobs

    [fetchJobs] is an [async] function: it runs until its next [await],
    and is resumed when the awaited promise settles. An activation that
    is suspended is the closure of the local variables live at its
    [await]. *)
Inductive Activation : Type :=
| AwaitFindJobs (currentFilters : SearchFilters)
    (** suspended at [await findJobs(currentFilters)] *)
| AwaitTimeout (allFetchedJobs : list Job) (jobsAdded jobsPerSource : Z)
    (i : nat) (source : string)
    (** suspended at [await new Promise(... setTimeout(resolve, 600))] *)
| Returned.

(** The [finally] block. *)
Definition finally_ (st : State) : State := setIsLoading false st.

(** From the call to the first [await]. *)
Definition fetchJobs (currentFilters : SearchFilters) (st : State)
    : State * Activation :=
  let st := setIsLoading true st in
  let st := setError None st in
  let st := setJobs (λ _, []) st in
  let st :=
    setScrapingStatus (λ _, mkStatus [] (JOB_SOURCES !! 0%nat)) st in
  (st, AwaitFindJobs currentFilters).

(** The test [i < JOB_SOURCES.length] of the [for] loop and, when it
    holds, the body up to its [await]; the [finally] block when the loop
    is left. *)
Definition loop_test (allFetchedJobs : list Job)
    (jobsAdded jobsPerSource : Z) (i : nat) (st : State)
    : State * Activation :=
  match JOB_SOURCES !! i with
  | Some source =>
      (setScrapingStatus
         (λ prev, mkStatus (completed prev) (Some source)) st,
       AwaitTimeout allFetchedJobs jobsAdded jobsPerSource i source)
  | None => (finally_ st, Returned)
  end.

(** The message stored by the [catch] block. *)
Definition catch_message (err : Thrown) : string :=
  match err with
  | ErrorObj message => message
  | OtherValue => "An unexpected error occurred."
  end.

(** Resumption after [await findJobs(currentFilters)]. *)
Definition after_findJobs (outcome : Settled (list Job)) (st : State)
    : State * Activation :=
  match outcome with
  | Fulfilled allFetchedJobs =>
      if decide (length allFetchedJobs = 0%nat) then
        let st :=
          setScrapingStatus (λ _, mkStatus JOB_SOURCES None) st in
        let st := setIsLoading false st in
        (finally_ st, Returned)
      else
        let jobsAdded := 0 in
        let jobsPerSource :=
          Math_ceil_div (Z.of_nat (length allFetchedJobs))
                        (Z.of_nat (length JOB_SOURCES)) in
        loop_test allFetchedJobs jobsAdded jobsPerSource 0 st
  | Rejected err =>
      let st := setError (Some (catch_message err)) st in
      let st := setJobs (λ _, []) st in
      (finally_ st, Returned)
  end.

(** The batch revealed by one iteration. *)
Definition jobsToAdd (allFetchedJobs : list Job)
    (jobsAdded jobsPerSource : Z) : list Job :=
  slice jobsAdded (jobsAdded + jobsPerSource) allFetchedJobs.

(** Resumption after the 600 ms delay: the rest of the loop body, then
    the next iteration up to its [await]. *)
Definition after_timeout (allFetchedJobs : list Job)
    (jobsAdded jobsPerSource : Z) (i : nat) (source : string)
    (st : State) : State * Activation :=
  let batch := jobsToAdd allFetchedJobs jobsAdded jobsPerSource in
  let st := setJobs (λ prev, prev ++ batch) st in
  let jobsAdded := jobsAdded + jobsPerSource in
  let st :=
    setScrapingStatus
      (λ prev, mkStatus (completed prev ++ [source])
                        (or_null (JOB_SOURCES !! (i + 1)%nat))) st in
  loop_test allFetchedJobs jobsAdded jobsPerSource (i + 1) st.

(** One search in isolation: the timers of a suspended activation fire
    one after the other, nothing else happens in between. The batches
    appended to [jobs] are collected in order. [fuel] bounds the number
    of timers awaited. *)
Fixpoint reveal (fuel : nat) (a : Activation) (st : State)
    : State * Activation * list (list Job) :=
  match fuel, a with
  | S fuel, AwaitTimeout all added per i source =>
      let '(st1, a1) := after_timeout all added per i source st in
      let '(st2, a2, batches) := reveal fuel a1 st1 in
      (st2, a2, jobsToAdd all added per :: batches)
  | _, _ => (st, a, [])
  end.

(** The windows of width [c] of a list, one per source. *)
Definition five_batches (all : list Job) (c : Z) : list (list Job) :=
  (λ i : nat, jobsToAdd all (Z.of_nat i * c) c)
    <$> seq 0 (length JOB_SOURCES).

Definition fetchJobs_alone (fuel : nat) (currentFilters : SearchFilters)
    (outcome : Settled (list Job)) (st : State)
    : State * Activation * list (list Job) :=
  let '(st0, _) := fetchJobs currentFilters st in
  let '(st1, a1) := after_findJobs outcome st0 in
  reveal fuel a1 st1.

Definition handleSearch (newFilters : SearchFilters) (st : State)
    : State * Activation :=
  let st := setFilters newFilters st in
  let st := setActiveView search st in
  let st := setCurrentPage 1 st in
  fetchJobs newFilters st.

(** *** The event loop

    The application between two events: the React state and the
    activations of [fetchJobs] started so far, oldest first. *)
Record System : Type := mkSystem {
  app : State;
  activations : list Activation
}.

Inductive Event : Type :=
| SubmitSearch (newFilters : SearchFilters)
    (** [handleSearch], called by the search form *)
| FindJobsSettled (k : nat) (outcome : Settled (list Job))
    (** the promise awaited by activation [k] settles *)
| TimeoutFired (k : nat)
    (** the timer awaited by activation [k] fires *)
| ViewChange (view : View)
| PageChange (page : Z)
| SaveJob (job : Job)
| UnsaveJob (jobId : string).

(** After the first render: the mount effect has called
    [fetchJobs(filters)]. *)
Definition mounted (loaded : list Job) : System :=
  let '(st, a) := fetchJobs (filters (initial loaded)) (initial loaded) in
  mkSystem st [a].

Definition resume (k : nat) (sys : System)
    (r : State * Activation) : System :=
  mkSystem (fst r) (<[k := snd r]> (activations sys)).

(** One event; [None] when the event cannot occur in that state (no
    activation [k] awaits what the event delivers). *)
Definition step (ev : Event) (sys : System) : option System :=
  match ev with
  | SubmitSearch newFilters =>
      let '(st, a) := handleSearch newFilters (app sys) in
      Some (mkSystem st (activations sys ++ [a]))
  | FindJobsSettled k outcome =>
      match activations sys !! k with
      | Some (AwaitFindJobs _) =>
          Some (resume k sys (after_findJobs outcome (app sys)))
      | _ => None
      end
  | TimeoutFired k =>
      match activations sys !! k with
      | Some (AwaitTimeout all added per i source) =>
          Some (resume k sys
                  (after_timeout all added per i source (app sys)))
      | _ => None
      end
  | ViewChange view =>
      Some (mkSystem (handleViewChange view (app sys)) (activations sys))
  | PageChange page =>
      Some (mkSystem (handlePageChange page (app sys)) (activations sys))
  | SaveJob job =>
      Some (mkSystem (handleSaveJob job (app sys)) (activations sys))
  | UnsaveJob jobId =>
      Some (mkSystem (handleUnsaveJob jobId (app sys)) (activations sys))
  end.

(** What the rendered page lets through: [SearchBar] is rendered in the
    search view only and its submit button carries
    [disabled={isLoading}]; pages are requested through the [Pagination]
    component. *)
Definition offered (ev : Event) (sys : System) : bool :=
  match ev with
  | SubmitSearch _ =>
      negb (isLoading (app sys))
      && match activeView (app sys) with search => true | saved => false end
  | PageChange page =>
      bool_decide
        (page ∈ Pagination.onPageChange_calls (currentPage (app sys))
                  (totalPages (app sys)))
  | _ => true
  end.

Fixpoint run (evs : list Event) (sys : System) : option System :=
  match evs with
  | [] => Some sys
  | ev :: evs =>
      match step ev sys with
      | Some sys' => run evs sys'
      | None => None
      end
  end.

(** [run] restricted to the events that the page offers. *)
Fixpoint run_offered (evs : list Event) (sys : System) : option System :=
  match evs with
  | [] => Some sys
  | ev :: evs =>
      if offered ev sys then
        match step ev sys with
        | Some sys' => run_offered evs sys'
        | None => None
        end
      else None
  end.

(** The list that the latest search has fetched, read off the events:
    empty from a submission until its [findJobs] is fulfilled. On the
    offered runs at most one activation is in flight, so the latest
    settlement belongs to the latest search. *)
Definition fetched_after (ev : Event) (latest : list Job) : list Job :=
  match ev with
  | SubmitSearch _ => []
  | FindJobsSettled _ (Fulfilled allFetchedJobs) => allFetchedJobs
  | FindJobsSettled _ (Rejected _) => []
  | _ => latest
  end.

Definition latest_fetched (evs : list Event) : list Job :=
  foldl (λ latest ev, fetched_after ev latest) [] evs.

(** What the latest activation, suspended or returned, guarantees about
    the state when the latest search has fetched [latest]: while it
    awaits a timer, [jobs] is the part of the fetched list before
    [jobsAdded]. *)
Definition activation_ok (latest : list Job) (a : Activation)
    (st : State) : Prop :=
  match a with
  | Returned => jobs st = latest
  | AwaitFindJobs _ => isLoading st = true ∧ jobs st = [] ∧ latest = []
  | AwaitTimeout all added per i source =>
      isLoading st = true
      ∧ latest = all
      ∧ all ≠ []
      ∧ per = Math_ceil_div (Z.of_nat (length all))
                            (Z.of_nat (length JOB_SOURCES))
      ∧ added = Z.of_nat i * per
      ∧ JOB_SOURCES !! i = Some source
      ∧ jobs st = take (Z.to_nat added) all
  end.

(** Every activation but the latest has returned. *)
Definition one_at_a_time (latest : list Job) (sys : System) : Prop :=
  ∃ earlier a,
    activations sys = earlier ++ [a]
    ∧ Forall (λ x, x = Returned) earlier
    ∧ activation_ok latest a (app sys).

Definition suspended (a : Activation) : bool :=
  match a with
  | Returned => false
  | _ => true
  end.

(** The activations that have not returned yet. *)
Definition in_flight (sys : System) : list Activation :=
  filter (λ a, suspended a = true) (activations sys).

(** Some activation is suspended. *)
Definition some_suspended (sys : System) : Prop :=
  ∃ k a, activations sys !! k = Some a ∧ suspended a = true.

(** *** The other handlers of [App] *)

Definition setSelectedJob (j : option Job) (st : State) : State :=
  mkState (jobs st) (savedJobs st) j (isLoading st)
    (error st) (filters st) (activeView st) (isAddJobModalOpen st)
    (scrapingStatus st) (currentPage st).

Definition setIsAddJobModalOpen (b : bool) (st : State) : State :=
  mkState (jobs st) (savedJobs st) (selectedJob st) (isLoading st)
    (error st) (filters st) (activeView st) b
    (scrapingStatus st) (currentPage st).

Definition handleJobSelect (job : Job) : State → State :=
  setSelectedJob (Some job).

Definition handleCloseModal : State → State := setSelectedJob None.

Definition handleJobParsedAndSaved (job : Job) (st : State) : State :=
  setActiveView saved (handleSaveJob job st).

(** *** What the search view renders *)

Definition in_search_view (st : State) : bool :=
  match activeView st with
  | search => true
  | saved => false
  end.

(** [isLoading && <LiveSearchStatus ... />]. *)
Definition renders_LiveSearchStatus (st : State) : bool :=
  in_search_view st && isLoading st.

(** [error && <div>{error}</div>]: the message shown, if any. *)
Definition rendered_error (st : State) : option string :=
  if in_search_view st && truthy (error st) then error st else None.

(** [!isLoading && !error && jobs.length === 0 && ...]: the
    "No jobs found" notice. *)
Definition renders_no_jobs_found (st : State) : bool :=
  in_search_view st
  && negb (isLoading st) && negb (truthy (error st))
  && bool_decide (length (jobs st) = 0%nat).

(** The pages of the displayed collection, from the first to the last. *)
Definition all_pages (st : State) : list (list Job) :=
  (λ p, currentJobsOnPage (setCurrentPage p st)) <$> seqZ 1 (totalPages st).

End App.

(** ** JSON values and [JSON.parse] *)

Module JSON.
Import JS.

Inductive value : Type :=
| Null
| Bool (b : bool)
| Number (n : Z)
| Str (s : string)
| Array (elements : list value)
| Object (members : list (string * value)).

(** Property access on a parsed object: of two members with one key,
    [JSON.parse] keeps the later one. *)
Fixpoint field (key : string) (members : list (string * value))
    : option value :=
  match members with
  | [] => None
  | (k, v) :: rest =>
      match field key rest with
      | Some later => Some later
      | None => if decide (k = key) then Some v else None
      end
  end.

(** The [SyntaxError] thrown on a text that is not JSON. The wording of
    its message depends on the engine; the messages of the engines all
    mention JSON, which is what [parseJobPosting] looks for. *)
Definition SyntaxError : Thrown :=
  ErrorObj "SyntaxError: the text is not valid JSON".

(** *** A reader for a fragment of the JSON grammar

    [JSON.parse] is a builtin; the functions that call it take it as a
    parameter. [parse] below is the instance at which they are
    evaluated: a recursive-descent reader of [null], [true], [false],
    integers, strings without escape sequences, arrays and objects, with
    the white space of the grammar. A text outside the fragment (a
    fraction, an exponent, a backslash) is reported as a syntax error,
    which is where the fragment differs from the builtin. *)
Definition quote : ascii := ascii_of_nat 34.
Definition backslash : ascii := ascii_of_nat 92.

Definition is_ws (c : ascii) : bool :=
  match nat_of_ascii c with
  | 32%nat | 9%nat | 10%nat | 13%nat => true
  | _ => false
  end.

Fixpoint skip_ws (s : string) : string :=
  match s with
  | String c rest => if is_ws c then skip_ws rest else s
  | EmptyString => s
  end.

Definition digit (c : ascii) : option Z :=
  let n := Z.of_nat (nat_of_ascii c) in
  if (48 <=? n) && (n <=? 57) then Some (n - 48) else None.

Fixpoint digits (acc : Z) (s : string) : Z * string :=
  match s with
  | String c rest =>
      match digit c with
      | Some d => digits (10 * acc + d) rest
      | None => (acc, s)
      end
  | EmptyString => (acc, s)
  end.

(** [0] or a digit from 1 to 9 followed by digits, not followed by a
    fraction or an exponent. *)
Definition scan_int (s : string) : option (Z * string) :=
  match s with
  | String c rest =>
      match digit c with
      | Some d =>
          let '(n, rest') := if d =? 0 then (0, rest) else digits d rest in
          match rest' with
          | String c' _ =>
              if Ascii.eqb c' "." || Ascii.eqb c' "e" || Ascii.eqb c' "E"
              then None else Some (n, rest')
          | EmptyString => Some (n, rest')
          end
      | None => None
      end
  | EmptyString => None
  end.

Definition scan_number (s : string) : option (Z * string) :=
  match s with
  | String "-" rest =>
      match scan_int rest with
      | Some (n, rest') => Some (- n, rest')
      | None => None
      end
  | _ => scan_int s
  end.

(** The characters after an opening quote, up to the closing one. *)
Fixpoint scan_string (s : string) : option (string * string) :=
  match s with
  | EmptyString => None
  | String c rest =>
      if Ascii.eqb c quote then Some (EmptyString, rest)
      else if Ascii.eqb c backslash || (nat_of_ascii c <? 32)%nat then None
      else match scan_string rest with
           | Some (t, rest') => Some (String c t, rest')
           | None => None
           end
  end.

Fixpoint strip_prefix (p s : string) : option string :=
  match p, s with
  | EmptyString, _ => Some s
  | String a p', String b s' =>
      if Ascii.eqb a b then strip_prefix p' s' else None
  | String _ _, EmptyString => None
  end.

Definition scan_atom (s : string) : option (value * string) :=
  match strip_prefix "null" s with
  | Some rest => Some (Null, rest)
  | None =>
  match strip_prefix "true" s with
  | Some rest => Some (Bool true, rest)
  | None =>
  match strip_prefix "false" s with
  | Some rest => Some (Bool false, rest)
  | None =>
  match scan_number s with
  | Some (n, rest) => Some (Number n, rest)
  | None => None
  end end end end.

Fixpoint parse_value (fuel : nat) (s : string) : option (value * string) :=
  match fuel with
  | O => None
  | S fuel =>
      match skip_ws s with
      | EmptyString => None
      | String c rest as s' =>
          if Ascii.eqb c "[" then
            match skip_ws rest with
            | String "]" rest' => Some (Array [], rest')
            | _ =>
                match parse_elements fuel rest with
                | Some (vs, rest') => Some (Array vs, rest')
                | None => None
                end
            end
          else if Ascii.eqb c "{" then
            match skip_ws rest with
            | String "}" rest' => Some (Object [], rest')
            | _ =>
                match parse_members fuel rest with
                | Some (ms, rest') => Some (Object ms, rest')
                | None => None
                end
            end
          else if Ascii.eqb c quote then
            match scan_string rest with
            | Some (t, rest') => Some (Str t, rest')
            | None => None
            end
          else scan_atom s'
      end
  end
with parse_elements (fuel : nat) (s : string)
    : option (list value * string) :=
  match fuel with
  | O => None
  | S fuel =>
      match parse_value fuel s with
      | Some (v, rest) =>
          match skip_ws rest with
          | String "," rest' =>
              match parse_elements fuel rest' with
              | Some (vs, rest'') => Some (v :: vs, rest'')
              | None => None
              end
          | String "]" rest' => Some ([v], rest')
          | _ => None
          end
      | None => None
      end
  end
with parse_members (fuel : nat) (s : string)
    : option (list (string * value) * string) :=
  match fuel with
  | O => None
  | S fuel =>
      match skip_ws s with
      | String c rest =>
          if Ascii.eqb c quote then
            match scan_string rest with
            | Some (key, rest1) =>
                match skip_ws rest1 with
                | String ":" rest2 =>
                    match parse_value fuel rest2 with
                    | Some (v, rest3) =>
                        match skip_ws rest3 with
                        | String "," rest4 =>
                            match parse_members fuel rest4 with
                            | Some (ms, rest5) => Some ((key, v) :: ms, rest5)
                            | None => None
                            end
                        | String "}" rest4 => Some ([(key, v)], rest4)
                        | _ => None
                        end
                    | None => None
                    end
                | _ => None
                end
            | None => None
            end
          else None
      | EmptyString => None
      end
  end.

Definition parse (text : string) : Settled value :=
  match parse_value (2 * String.length text + 2) text with
  | Some (v, rest) =>
      match skip_ws rest with
      | EmptyString => Fulfilled v
      | String _ _ => Rejected SyntaxError
      end
  | None => Rejected SyntaxError
  end.

(** Object spread [{...v}] of a parsed value: the members of an object,
    the elements of an array and the characters of a string under their
    indices, nothing for [null], a boolean or a number. *)
Definition spread (v : value) : list (string * value) :=
  match v with
  | Object members => members
  | Array elements => imap (λ i x, (pretty i, x)) elements
  | Str s =>
      imap (λ i c, (pretty i, Str (String c EmptyString)))
           (String.list_ascii_of_string s)
  | Null | Bool _ | Number _ => []
  end.

End JSON.

(** ** services/geminiService.ts *)

Module GeminiService.
Import JS Types JSON.

(** [jobSchema]: the shape that the request asks the service to answer
    in. Six required string properties, [skills] a required array of
    strings, [salaryRange] an optional, nullable string. *)
Definition required_strings : list string :=
  ["id"; "title"; "company"; "location"; "type"; "description"]%string.

(** The employment kinds: the four literals of the type of [Job.type]
    in [types.ts], which are also the values offered by the job-type
    selector of [SearchBar]. *)
Definition employment_kinds : list string :=
  ["Full-time"; "Part-time"; "Contract"; "Internship"]%string.

Definition is_Str (v : value) : bool :=
  match v with
  | Str _ => true
  | _ => false
  end.

(** Modelled from the spec: what conforming to the Job record shape means
    for a parsed value: the required fields of [jobSchema] present with
    their types, and the employment kind one of the enumeration. *)
Definition conforms_to_Job (v : value) : bool :=
  match v with
  | Object members =>
      forallb (λ key, match field key members with
                      | Some (Str _) => true
                      | _ => false
                      end) required_strings
      && match field "skills" members with
         | Some (Array elements) => forallb is_Str elements
         | _ => false
         end
      && match field "salaryRange" members with
         | None | Some Null | Some (Str _) => true
         | _ => false
         end
      && match field "type" members with
         | Some (Str kind) => bool_decide (kind ∈ employment_kinds)
         | _ => false
         end
  | _ => false
  end.

Definition conforms_to_Job_list (v : value) : bool :=
  match v with
  | Array elements => forallb conforms_to_Job elements
  | _ => false
  end.

Definition fetch_failure : Thrown :=
  ErrorObj "Failed to fetch job listings from Gemini API.".

Section FindJobs.
(** The builtin [JSON.parse], and the remote call
    [ai.models.generateContent] on the prompt built from the filters:
    it is fulfilled with [response.text] or rejected. *)
Variable JSON_parse : string → Settled value.
Variable generateContent : SearchFilters → Settled string.

(** The value that [findJobs] returns is the parsed value itself: the
    cast [jobs as Job[]] is erased at run time. *)
Definition findJobs (filters : SearchFilters) : Settled value :=
  match generateContent filters with
  | Fulfilled jsonString =>
      match JSON_parse jsonString with
      | Fulfilled jobs => Fulfilled jobs
      | Rejected _ => Rejected fetch_failure
      end
  | Rejected _ => Rejected fetch_failure
  end.
End FindJobs.

(** *** getJobInsight *)

Definition separator : string :=
  newline +:+ newline +:+ "---" +:+ newline +:+ newline.

(** The prompt of each kind of insight. The [default] branch of the
    [switch], which throws, is not reachable from a value of the
    enumeration. *)
Definition insight_prompt (job : Job) (insightType : InsightType) : string :=
  match insightType with
  | SUMMARY =>
      "Summarize the key responsibilities and qualifications from the following job description in 3-4 concise bullet points:"
      +:+ separator +:+ description job
  | SKILLS =>
      "Based on this job description, list the top 5 most important technical skills as a comma-separated list. Only list the skills."
      +:+ separator +:+ description job
  | COVER_LETTER =>
      "Write a compelling and professional opening paragraph (2-3 sentences) for a cover letter for the role of '"
      +:+ title job +:+ "' at '" +:+ company job
      +:+ "'. The paragraph should be concise and express enthusiasm for the role and the company based on the provided job description."
      +:+ separator +:+ description job
  end.

Definition insight_failure : Thrown :=
  ErrorObj "Failed to generate insight for the job.".

Section GetJobInsight.
(** [ai.models.generateContent] on a text prompt. *)
Variable generateContent : string → Settled string.

Definition getJobInsight (job : Job) (insightType : InsightType)
    : Settled string :=
  match generateContent (insight_prompt job insightType) with
  | Fulfilled text => Fulfilled text
  | Rejected _ => Rejected insight_failure
  end.
End GetJobInsight.

(** *** analyzeResume *)

(** The argument [resume]: an optional text and an optional file.
    [data] is optional because the caller reads it off a split that may
    have no second piece. *)
Record ResumeFile : Type := mkResumeFile {
  rf_data : option string;
  rf_mimeType : string
}.

Record Resume : Type := mkResume {
  r_text : option string;
  r_file : option ResumeFile
}.

(** The elements of [parts]. *)
Inductive Part : Type :=
| TextPart (text : string)
| InlineData (mimeType : string) (data : option string).

Definition promptText (job : Job) : string :=
  "
    As an expert career coach and resume writer, analyze the following resume against the provided job description.

    **Job Description:**
    Title: " +:+
  title job +:+
  "
    Company: " +:+
  company job +:+
  "
    Description: " +:+
  description job +:+
  "
    Required Skills: " +:+
  String.concat ", " (skills job) +:+
  "

    **User's Resume is provided as a file attachment or as text below.**

    ---

    Provide a detailed analysis with the following sections, formatted in markdown:

    ### Overall Match
    Provide a brief summary (2-3 sentences) of how well the resume aligns with the job description and a qualitative rating (e.g., Strong Match, Good Match, Needs Improvement).

    ### Keyword Analysis
    - **Keywords to Add:** List critical keywords and skills from the job description that are missing from the resume.
    - **Keywords to Emphasize:** List keywords that are present but could be highlighted more effectively.

    ### Tailoring Suggestions
    Provide 3-5 specific, actionable suggestions for tailoring the resume. For each suggestion, explain *why* it's important and provide an example of how to phrase it. For instance, suggest rephrasing a bullet point to include specific metrics or technologies mentioned in the job description.
  ".

Definition no_resume : Thrown := ErrorObj "No resume provided for analysis.".

Definition analysis_failure : Thrown :=
  ErrorObj "Failed to analyze resume with Gemini API.".

(** The parts pushed before the [try] block; [None] when the function
    throws instead. *)
Definition resume_parts (resume : Resume) (job : Job) : option (list Part) :=
  match r_file resume with
  | Some file =>
      Some [TextPart (promptText job);
            InlineData (rf_mimeType file) (rf_data file)]
  | None =>
      match r_text resume with
      | Some text =>
          if truthy (Some text) then
            Some [TextPart (promptText job +:+ newline +:+ newline
                            +:+ "**User's Resume:**" +:+ newline +:+ text)]
          else None
      | None => None
      end
  end.

Section AnalyzeResume.
(** [ai.models.generateContent] on a list of parts. *)
Variable generateContent : list Part → Settled string.

Definition analyzeResume (resume : Resume) (job : Job) : Settled string :=
  match resume_parts resume job with
  | Some parts =>
      match generateContent parts with
      | Fulfilled text => Fulfilled text
      | Rejected _ => Rejected analysis_failure
      end
  | None => Rejected no_resume
  end.
End AnalyzeResume.

(** *** parseJobPosting *)

Definition invalid_json : Thrown :=
  ErrorObj "AI failed to return valid JSON. The job description might be too complex or unclear. Please try again with a different posting.".

Definition posting_failure : Thrown :=
  ErrorObj "Failed to parse job posting with Gemini API.".

(** The [catch] block. *)
Definition rethrown (error : Thrown) : Thrown :=
  match error with
  | ErrorObj message =>
      if includes "JSON" message then invalid_json else posting_failure
  | OtherValue => posting_failure
  end.

Section ParseJobPosting.
(** The builtin [JSON.parse], the remote call on the prompt built from
    the posting text, and the identifier that [crypto.randomUUID()]
    produces in this call. *)
Variable JSON_parse : string → Settled value.
Variable generateContent : string → Settled string.
Variable randomUUID : string.

(** [{ ...parsedJobData, id: crypto.randomUUID() }]: the member written
    last is the one that property access finds. *)
Definition parseJobPosting (jobPostingText : string) : Settled value :=
  match generateContent jobPostingText with
  | Fulfilled jsonString =>
      match JSON_parse jsonString with
      | Fulfilled parsedJobData =>
          Fulfilled (Object (spread parsedJobData ++ [("id"%string, Str randomUUID)]))
      | Rejected error => Rejected (rethrown error)
      end
  | Rejected error => Rejected (rethrown error)
  end.
End ParseJobPosting.

End GeminiService.

(** ** App.tsx: the initializer of [savedJobs] *)

Module SavedJobs.
Import JS JSON.

(** [window.localStorage.getItem('savedJobs')]: it throws when the store
    cannot be accessed, returns [null] when the key is absent, and the
    stored string otherwise. *)
Inductive GetItem : Type :=
| Throws (e : Thrown)
| Absent
| Stored (saved : string).

Section Initializer.
Variable JSON_parse : string → Settled value.

(** The [try] block: [saved ? JSON.parse(saved) : []]; [null] and the
    empty string are falsy. *)
Definition try_block (got : GetItem) : Settled value :=
  match got with
  | Throws e => Rejected e
  | Absent => Fulfilled (Array [])
  | Stored saved =>
      if decide (saved = ""%string) then Fulfilled (Array [])
      else JSON_parse saved
  end.

(** The initializer with its [catch] block: the initial value of
    [savedJobs] and the lines written by [console.error]. *)
Definition initializer (got : GetItem) : value * list string :=
  match try_block got with
  | Fulfilled v => (v, [])
  | Rejected _ =>
      (Array [], ["Error reading saved jobs from localStorage"%string])
  end.
End Initializer.

(** The [TypeError] thrown when a property of [null] is read; the
    wording of its message depends on the engine. *)
Definition TypeError : Thrown := ErrorObj "TypeError".

(** [savedJobs.length], the first read of the collection in the first
    render (the badge of the "Saved Jobs" button), on the value that the
    initializer produced: the property [length] of that value, [None]
    standing for [undefined]. A throw at this point aborts the render. *)
Definition savedJobs_length (savedJobs : value) : Settled (option value) :=
  match savedJobs with
  | Null => Rejected TypeError
  | Array elements => Fulfilled (Some (Number (Z.of_nat (length elements))))
  | Str s => Fulfilled (Some (Number (Z.of_nat (String.length s))))
  | Object members => Fulfilled (field "length" members)
  | Bool _ | Number _ => Fulfilled None
  end.

End SavedJobs.

(** ** components/JobCard.tsx *)

Module JobCard.
Import JS Types.

(** [handleSaveToggle]: the callback invoked, given the props of the
    card. *)
Definition handleSaveToggle {S : Type} (job : Job) (isSaved : bool)
    (onSave : Job → S → S) (onUnsave : string → S → S) : S → S :=
  if isSaved then onUnsave (id job) else onSave job.

(** [job.skills.slice(0, 4)]: the skills shown as tags. *)
Definition shown_skills (job : Job) : list string :=
  slice 0 4 (skills job).

(** The number in the "+N more" tag, rendered when
    [job.skills.length > 4]. *)
Definition more_skills (job : Job) : option Z :=
  if 4 <? Z.of_nat (length (skills job))
  then Some (Z.of_nat (length (skills job)) - 4)
  else None.

End JobCard.

(** ** components/LiveSearchStatus.tsx *)

Module LiveSearchStatus.
Import App.

(** The icon in front of a source. *)
Inductive Icon : Type := Check | Spinner | Circle.

Definition icon (status : ScrapingStatus) (source : string) : Icon :=
  let isCompleted := bool_decide (source ∈ completed status) in
  let isCurrent := bool_decide (current status = Some source) in
  if isCompleted then Check else if isCurrent then Spinner else Circle.

(** [sources.map(source => ...)]. *)
Definition icons (status : ScrapingStatus) (sources : list string)
    : list Icon :=
  icon status <$> sources.

End LiveSearchStatus.

(** ** components/JobDetailModal.tsx *)

Module JobDetailModal.
Import JS Types.

Record Insight : Type := mkInsight {
  i_type : InsightType;
  i_title : string;
  content : option string;
  i_isLoading : bool;
  i_error : option string
}.

Record UploadedFile : Type := mkUploaded {
  name : string;
  data : option string;
  mimeType : string
}.

Record State : Type := mkState {
  insights : list Insight;
  activeTab : string;
  resumeText : string;
  analysisResult : option string;
  isAnalyzing : bool;
  analysisError : option string;
  uploadedFile : option UploadedFile
}.

Definition initial : State :=
  {| insights :=
       [ mkInsight SUMMARY "Summarize" None false None;
         mkInsight SKILLS "Key Skills" None false None;
         mkInsight COVER_LETTER "Cover Letter Helper" None false None ];
     activeTab := "insights";
     resumeText := "";
     analysisResult := None;
     isAnalyzing := false;
     analysisError := None;
     uploadedFile := None |}.

Definition setInsights (f : list Insight → list Insight) (st : State)
    : State :=
  mkState (f (insights st)) (activeTab st) (resumeText st)
    (analysisResult st) (isAnalyzing st) (analysisError st)
    (uploadedFile st).

Definition setActiveTab (tab : string) (st : State) : State :=
  mkState (insights st) tab (resumeText st)
    (analysisResult st) (isAnalyzing st) (analysisError st)
    (uploadedFile st).

Definition setResumeText (text : string) (st : State) : State :=
  mkState (insights st) (activeTab st) text
    (analysisResult st) (isAnalyzing st) (analysisError st)
    (uploadedFile st).

Definition setAnalysisResult (r : option string) (st : State) : State :=
  mkState (insights st) (activeTab st) (resumeText st)
    r (isAnalyzing st) (analysisError st) (uploadedFile st).

Definition setIsAnalyzing (b : bool) (st : State) : State :=
  mkState (insights st) (activeTab st) (resumeText st)
    (analysisResult st) b (analysisError st) (uploadedFile st).

Definition setAnalysisError (e : option string) (st : State) : State :=
  mkState (insights st) (activeTab st) (resumeText st)
    (analysisResult st) (isAnalyzing st) e (uploadedFile st).

Definition setUploadedFile (f : option UploadedFile) (st : State) : State :=
  mkState (insights st) (activeTab st) (resumeText st)
    (analysisResult st) (isAnalyzing st) (analysisError st) f.

(** The effect that runs when another job is selected. *)
Definition reset (st : State) : State :=
  let st :=
    setInsights
      (map (λ i, mkInsight (i_type i) (i_title i) None false None)) st in
  let st := setActiveTab "insights" st in
  let st := setResumeText "" st in
  let st := setUploadedFile None st in
  let st := setAnalysisResult None st in
  let st := setIsAnalyzing false st in
  setAnalysisError None st.

(** *** Insights *)

(** [prev.map(i => i.type === type ? f(i) : i)]. *)
Definition update_insight (type : InsightType) (f : Insight → Insight)
    (prev : list Insight) : list Insight :=
  map (λ i, if decide (i_type i = type) then f i else i) prev.

(** [handleFetchInsight] up to its [await]. *)
Definition handleFetchInsight (type : InsightType) (st : State) : State :=
  setInsights
    (update_insight type
       (λ i, mkInsight (i_type i) (i_title i) (content i) true None)) st.

(** Resumption after [await getJobInsight(job, type)]. *)
Definition after_getJobInsight (type : InsightType)
    (outcome : Settled string) (st : State) : State :=
  match outcome with
  | Fulfilled text =>
      setInsights
        (update_insight type
           (λ i, mkInsight (i_type i) (i_title i) (Some text) false
                           (i_error i))) st
  | Rejected error =>
      let errorMessage := message_or "An unknown error occurred." error in
      setInsights
        (update_insight type
           (λ i, mkInsight (i_type i) (i_title i) (content i) false
                           (Some errorMessage))) st
  end.

(** *** The resume analyzer *)

Definition allowedMimeTypes : list string :=
  ["application/pdf";
   "application/vnd.openxmlformats-officedocument.wordprocessingml.document"].

(** What [handleFileChange] reads of the chosen file. *)
Record File : Type := mkFile {
  file_name : string;
  file_type : string
}.

(** [handleFileChange]: the new state and, when a [FileReader] is
    started, the file its callbacks are closed over. *)
Definition handleFileChange (chosen : option File) (st : State)
    : State * option File :=
  match chosen with
  | None => (st, None)
  | Some file =>
      let st := setAnalysisError None st in
      if bool_decide (file_type file ∈ allowedMimeTypes) then (st, Some file)
      else
        (setAnalysisError
           (Some "Invalid file type. Please upload a PDF or DOCX file.") st,
         None)
  end.

(** [reader.onload]. *)
Definition reader_onload (file : File) (dataUrl : string) (st : State)
    : State :=
  let base64Data := split "," dataUrl !! 1%nat in
  let st :=
    setUploadedFile
      (Some (mkUploaded (file_name file) base64Data (file_type file))) st in
  setResumeText "" st.

(** [reader.onerror]. *)
Definition reader_onerror (st : State) : State :=
  setAnalysisError (Some "Failed to read the file.") st.

Section ResumeAnalyzer.
(** The builtin [String.prototype.trim]. *)
Variable trim : string → string.

(** The test that guards [handleAnalyzeResume] and disables its button
    (the modal renders only with a job). *)
Definition nothing_to_analyze (st : State) : bool :=
  bool_decide (trim (resumeText st) = "")
  && match uploadedFile st with
     | Some _ => false
     | None => true
     end.

(** [handleAnalyzeResume] up to its [await]: the new state and the
    argument of [analyzeResume], if it is called. *)
Definition handleAnalyzeResume (st : State)
    : State * option GeminiService.Resume :=
  if nothing_to_analyze st then (st, None)
  else
    let st' := setIsAnalyzing true st in
    let st' := setAnalysisError None st' in
    let st' := setAnalysisResult None st' in
    let resumeData :=
      match uploadedFile st with
      | Some uploaded =>
          GeminiService.mkResume None
            (Some (GeminiService.mkResumeFile (data uploaded)
                                              (mimeType uploaded)))
      | None => GeminiService.mkResume (Some (resumeText st)) None
      end in
    (st', Some resumeData).
End ResumeAnalyzer.

(** Resumption after [await analyzeResume(resumeData, job)], with the
    [finally] block. *)
Definition after_analyzeResume (outcome : Settled string) (st : State)
    : State :=
  let st :=
    match outcome with
    | Fulfilled result => setAnalysisResult (Some result) st
    | Rejected error =>
        setAnalysisError
          (Some (message_or "An unknown error occurred." error)) st
    end in
  setIsAnalyzing false st.

(** *** The events of the resume tab

    The state of the modal and the files whose [FileReader] has neither
    loaded nor failed yet. *)
Record Tab : Type := mkTab {
  modal : State;
  readers : list File
}.

Inductive Event : Type :=
| ChooseFile (chosen : option File)
| ReaderLoaded (k : nat) (dataUrl : string)
| ReaderFailed (k : nat)
| RemoveFile
| TypeText (text : string)
| SelectTab (tab : string)
| JobChanged
| AnalysisSettled (outcome : Settled string).

Definition step (ev : Event) (tab : Tab) : option Tab :=
  match ev with
  | ChooseFile chosen =>
      let '(st, started) := handleFileChange chosen (modal tab) in
      Some (mkTab st (readers tab ++ option_list started))
  | ReaderLoaded k dataUrl =>
      match readers tab !! k with
      | Some file =>
          Some (mkTab (reader_onload file dataUrl (modal tab))
                      (delete k (readers tab)))
      | None => None
      end
  | ReaderFailed k =>
      match readers tab !! k with
      | Some _ =>
          Some (mkTab (reader_onerror (modal tab)) (delete k (readers tab)))
      | None => None
      end
  | RemoveFile => Some (mkTab (setUploadedFile None (modal tab)) (readers tab))
  | TypeText text => Some (mkTab (setResumeText text (modal tab)) (readers tab))
  | SelectTab t => Some (mkTab (setActiveTab t (modal tab)) (readers tab))
  | JobChanged => Some (mkTab (reset (modal tab)) (readers tab))
  | AnalysisSettled outcome =>
      Some (mkTab (after_analyzeResume outcome (modal tab)) (readers tab))
  end.

Fixpoint run (evs : list Event) (tab : Tab) : option Tab :=
  match evs with
  | [] => Some tab
  | ev :: evs =>
      match step ev tab with
      | Some tab' => run evs tab'
      | None => None
      end
  end.

End JobDetailModal.

(** ** components/AddJobModal.tsx *)

Module AddJobModal.
Import JS.

Section Modal.
(** The type of the parsed job, which the modal hands on untouched, and
    the builtin [String.prototype.trim]. *)
Context {J : Type}.
Variable trim : string → string.

Record State : Type := mkState {
  jobText : string;
  parsedJob : option J;
  isLoading : bool;
  error : option string
}.

Definition initial : State := mkState "" None false None.

(** [handleClose], before it calls [onClose]. *)
Definition cleared : State := mkState "" None false None.

(** [handleParse] up to its [await]: the new state and the text handed to
    [parseJobPosting], if it is called. *)
Definition handleParse (st : State) : State * option string :=
  if bool_decide (trim (jobText st) = "") then
    (mkState (jobText st) (parsedJob st) (isLoading st)
             (Some "Please paste a job description first."%string),
     None)
  else
    (mkState (jobText st) None true None, Some (jobText st)).

(** Resumption after [await parseJobPosting(jobText)], with the
    [finally] block. *)
Definition after_parseJobPosting (outcome : Settled J) (st : State)
    : State :=
  match outcome with
  | Fulfilled result =>
      mkState (jobText st) (Some result) false (error st)
  | Rejected err =>
      mkState (jobText st) (parsedJob st) false
              (Some (message_or "An unknown error occurred." err))
  end.

(** [handleSave], on the state of the modal and the state [A] of its
    parent, reached through the props [onJobSaved] and [onClose]. *)
Definition handleSave {A : Type} (onJobSaved : J → A → A)
    (onClose : A → A) (st : State) (parent : A) : State * A :=
  match parsedJob st with
  | Some job => (cleared, onClose (onJobSaved job parent))
  | None => (st, parent)
  end.
End Modal.

End AddJobModal.

(** ** App.tsx: the props handed to the components *)

Module Wiring.
Import JS Types App.

(** The save button of a card or of the detail modal:
    [isSaved={isJobSaved(job.id)} onSave={handleSaveJob}
    onUnsave={handleUnsaveJob}]. *)
Definition toggle_saved (job : Job) (st : State) : State :=
  JobCard.handleSaveToggle job (isJobSaved (id job) st)
    handleSaveJob handleUnsaveJob st.

(** The "Save Job" button of the add-job modal:
    [onClose={() => setIsAddJobModalOpen(false)}
    onJobSaved={handleJobParsedAndSaved}]. *)
Definition save_parsed_job (m : AddJobModal.State (J := Job)) (st : State)
    : AddJobModal.State (J := Job) * State :=
  AddJobModal.handleSave handleJobParsedAndSaved
    (setIsAddJobModalOpen false) m st.

End Wiring.

(** ** Sample data for the evaluations below *)

Module Samples.
Import Types.

Definition job (jid : string) : Job :=
  mkJob jid "AI Engineer" "Acme" "Remote" "Full-time" "Builds models."
        ["Python"%string] None.

Definition some_filters : SearchFilters :=
  mkFilters "ML" "Berlin" "Contract" "" "" "".

Definition ten_jobs : list Job :=
  job <$> ["a0"; "a1"; "a2"; "a3"; "a4"; "a5"; "a6"; "a7"; "a8"; "a9"]%string.

(** Ten search results, first page. *)
Definition two_pages : App.State :=
  App.setJobs (λ _, ten_jobs) (App.initial []).

(** Two saved jobs. *)
Definition two_saved : App.State :=
  App.setSavedJobs (λ _, [job "a"; job "b"]) (App.initial []).

(** The first search fetches ten jobs and reveals its first batch. *)
Definition first_batch : list App.Event :=
  [ App.FindJobsSettled 0 (JS.Fulfilled ten_jobs); App.TimeoutFired 0 ].

(** [handleSearch] is then called again; the second search fetches the
    single job [b0]; the timers of both activations fire until both have
    returned. *)
Definition overlapping_searches : list App.Event :=
  first_batch ++
  [ App.SubmitSearch some_filters;
    App.TimeoutFired 0;
    App.FindJobsSettled 1 (JS.Fulfilled [job "b0"]);
    App.TimeoutFired 0; App.TimeoutFired 1; App.TimeoutFired 0;
    App.TimeoutFired 0; App.TimeoutFired 1; App.TimeoutFired 1;
    App.TimeoutFired 1; App.TimeoutFired 1 ].

(** A service that answers every request with the text [[{}]]. *)
Definition answers_empty_object (_ : SearchFilters) : JS.Settled string :=
  JS.Fulfilled "[{}]"%string.

(** A service that answers every request with the text [[1,]]. *)
Definition answers_broken_text (_ : SearchFilters) : JS.Settled string :=
  JS.Fulfilled "[1,]"%string.

(** [trim] on texts of characters below U+0100: the white space and
    line terminators in that range are U+0009 to U+000D, U+0020 and
    U+00A0. *)
Definition is_space (c : ascii) : bool :=
  match nat_of_ascii c with
  | 9%nat | 10%nat | 11%nat | 12%nat | 13%nat | 32%nat | 160%nat => true
  | _ => false
  end.

Fixpoint trim_start (s : string) : string :=
  match s with
  | String c rest => if is_space c then trim_start rest else s
  | EmptyString => s
  end.

Fixpoint trim_end (s : string) : string :=
  match s with
  | EmptyString => EmptyString
  | String c rest =>
      match trim_end rest with
      | EmptyString => if is_space c then EmptyString else String c EmptyString
      | kept => String c kept
      end
  end.

Definition trim (s : string) : string := trim_end (trim_start s).

(** A store that holds the text [null] under the key. *)
Definition stores_null : SavedJobs.GetItem := SavedJobs.Stored "null".

(** Twelve saved jobs, second page of the saved view. *)
Definition twelve_saved_page_two : App.State :=
  App.setCurrentPage 2
    (App.setActiveView App.saved
       (App.setSavedJobs (λ _, ten_jobs ++ [job "b0"; job "b1"])
          (App.initial []))).

Definition six_skills : Job :=
  mkJob "s" "AI Engineer" "Acme" "Remote" "Full-time" "Builds models."
        ["a"; "b"; "c"; "d"; "e"; "f"]%string None.

Definition pdf : JobDetailModal.File :=
  JobDetailModal.mkFile "cv.pdf" "application/pdf".

(** A program is chosen and refused, then a PDF is chosen and read. *)
Definition upload_of_a_pdf : list JobDetailModal.Event :=
  [ JobDetailModal.ChooseFile
      (Some (JobDetailModal.mkFile "setup.exe" "application/x-msdownload"));
    JobDetailModal.ChooseFile (Some pdf);
    JobDetailModal.TypeText "ignored";
    JobDetailModal.ReaderLoaded 0 "data:application/pdf;base64,JVBERi0x" ].

(** The add-job modal with a parsed job. *)
Definition parsed_modal : AddJobModal.State (J := Job) :=
  AddJobModal.mkState "Senior engineer wanted" (Some (job "u1")) false None.

(** A service that answers every posting with an object that proposes
    its own identifier. *)
Definition answers_with_id (_ : string) : JS.Settled string :=
  JS.Fulfilled
    ("{" +:+ String JSON.quote ("id" +:+ String JSON.quote (":7}"))).

End Samples.

(** * Properties *)

Import JS Types App.

(** ** Arithmetic and slicing *)

Section Primitives.
Context {A : Type}.
Implicit Types (l : list A) (a c : Z).

(** The ceiling of a quotient is the least multiplier that covers the
    dividend. *)
Lemma Math_ceil_div_spec a b :
  0 < b →
  b * (Math_ceil_div a b - 1) < a ≤ b * Math_ceil_div a b.
Proof.
  intros Hb. unfold Math_ceil_div.
  pose proof (Z.div_mod (- a) b ltac:(lia)) as Hdm.
  pose proof (Z.mod_pos_bound (- a) b Hb) as Hm.
  lia.
Qed.

Lemma Math_ceil_div_0 b : Math_ceil_div 0 b = 0.
Proof. unfold Math_ceil_div. cbn. by rewrite Zdiv_0_l. Qed.

(** On a window that starts at a non-negative index, [slice] drops the
    elements before the window and keeps at most its width. *)
Lemma slice_window l a c :
  0 ≤ a → 0 ≤ c →
  slice a (a + c) l = take (Z.to_nat c) (drop (Z.to_nat a) l).
Proof.
  intros Ha Hc. unfold slice, relative_index.
  destruct (Z.ltb_spec a 0) as [|_]; [lia|].
  destruct (Z.ltb_spec (a + c) 0) as [|_]; [lia|].
  destruct (Z_le_gt_dec (Z.of_nat (length l)) a) as [Hout|Hin].
  - rewrite !Z.min_r by lia.
    rewrite (drop_ge l (Z.to_nat a)) by lia.
    rewrite drop_ge by lia. by rewrite !take_nil.
  - rewrite (Z.min_l a) by lia.
    destruct (Z_le_gt_dec (a + c) (Z.of_nat (length l))).
    + rewrite Z.min_l by lia. f_equal. lia.
    + rewrite Z.min_r by lia.
      rewrite !take_ge; [done | |]; rewrite length_drop; lia.
Qed.

Lemma lookup_slice_window l a c (k : nat) :
  0 ≤ a → 0 ≤ c →
  slice a (a + c) l !! k =
    if decide (Z.of_nat k < c) then l !! (Z.to_nat a + k)%nat else None.
Proof.
  intros Ha Hc. rewrite slice_window by done.
  case_decide.
  - rewrite lookup_take_lt by lia. by rewrite lookup_drop.
  - by rewrite lookup_take_ge by lia.
Qed.

Lemma take_app_slice l a c :
  0 ≤ a → 0 ≤ c →
  take (Z.to_nat a) l ++ slice a (a + c) l = take (Z.to_nat (a + c)) l.
Proof.
  intros Ha Hc. rewrite slice_window by done.
  replace (Z.to_nat (a + c)) with (Z.to_nat a + Z.to_nat c)%nat by lia.
  by rewrite take_take_drop.
Qed.
End Primitives.

(** ** Pagination *)

(** C4: the number of pages is the ceiling of the collection length over 9
    (the least [n] with [9 n >= L], hence 0 for the empty collection), and
    on a page [p] of [1..totalPages] the visible slice holds exactly the
    elements at the positions [(p-1)*9 .. p*9 - 1] that exist, so at most 9
    of them. *)
Theorem C4_total_pages_and_visible_slice (st : State) :
  let L := Z.of_nat (length (jobsToDisplay st)) in
  let p := currentPage st in
  (9 * (totalPages st - 1) < L ≤ 9 * totalPages st)
  ∧ (L = 0 → totalPages st = 0)
  ∧ (1 ≤ p ≤ totalPages st →
       (∀ k : nat,
          currentJobsOnPage st !! k =
            if decide (k < 9)%nat
            then jobsToDisplay st !! (Z.to_nat ((p - 1) * 9) + k)%nat
            else None)
       ∧ (length (currentJobsOnPage st) ≤ 9)%nat).
Proof.
  intros L p.
  pose proof (Math_ceil_div_spec L 9 ltac:(lia)) as Hceil.
  fold (totalPages st) in Hceil.
  split; [exact Hceil|]. split.
  { intros HL. unfold totalPages. fold L. rewrite HL.
    apply Math_ceil_div_0. }
  intros Hp.
  assert (Hslice : currentJobsOnPage st =
            slice ((p - 1) * 9) ((p - 1) * 9 + 9) (jobsToDisplay st)).
  { unfold currentJobsOnPage, indexOfFirstJob, indexOfLastJob, JOBS_PER_PAGE.
    fold p. f_equal; lia. }
  split.
  - intros k. rewrite Hslice, lookup_slice_window by lia.
    repeat case_decide; done || lia.
  - rewrite Hslice, slice_window by lia. rewrite length_take. lia.
Qed.

Lemma C4_total_pages_and_visible_slice_witness :
  1 ≤ currentPage (setCurrentPage 2 Samples.two_pages)
    ≤ totalPages (setCurrentPage 2 Samples.two_pages)
  ∧ currentJobsOnPage (setCurrentPage 2 Samples.two_pages) !! 0%nat
    = jobsToDisplay (setCurrentPage 2 Samples.two_pages) !! 9%nat
  ∧ (length (currentJobsOnPage (setCurrentPage 2 Samples.two_pages)) ≤ 9)%nat.
Proof.
  assert (Hp : 1 ≤ currentPage (setCurrentPage 2 Samples.two_pages)
                 ≤ totalPages (setCurrentPage 2 Samples.two_pages))
    by (vm_compute; split; discriminate).
  split; [exact Hp|].
  destruct (C4_total_pages_and_visible_slice
              (setCurrentPage 2 Samples.two_pages)) as (_ & _ & Hpage).
  destruct (Hpage Hp) as [Hk Hlen].
  split; [exact (Hk 0%nat) | exact Hlen].
Defined.

(** The pages that the [Pagination] component can request from an
    in-range page are in range. *)
Lemma onPageChange_calls_in_range (currentPage totalPages page : Z) :
  1 ≤ currentPage ≤ totalPages →
  page ∈ Pagination.onPageChange_calls currentPage totalPages →
  1 ≤ page ≤ totalPages.
Proof.
  intros Hcur. unfold Pagination.onPageChange_calls.
  destruct (Z.leb_spec totalPages 1) as [|Htp]; [by intros ?%elem_of_nil|].
  rewrite !elem_of_app.
  unfold Pagination.handlePrevious, Pagination.handleNext,
    Pagination.pageNumbers.
  intros [Hprev | [Hnum | Hnext]].
  - destruct (Z.ltb_spec 1 currentPage); cbn in Hprev.
    + apply list_elem_of_singleton in Hprev. lia.
    + by apply elem_of_nil in Hprev.
  - apply elem_of_seqZ in Hnum. lia.
  - destruct (Z.ltb_spec currentPage totalPages); cbn in Hnext.
    + apply list_elem_of_singleton in Hnext. lia.
    + by apply elem_of_nil in Hnext.
Qed.




(** ** The saved-jobs store *)

Section SavedJobsStore.
Implicit Types (prev : list Job) (j job : Job) (jobId : string).

Lemma save_updater_present j prev :
  id j ∈ id <$> prev → save_updater j prev = prev.
Proof.
  intros (job & Hid & Hin)%list_elem_of_fmap. unfold save_updater.
  destruct (list_find _ prev) as [[]|] eqn:Hfind; [done|].
  apply list_find_None in Hfind.
  rewrite Forall_forall in Hfind. by destruct (Hfind job Hin).
Qed.

Lemma save_updater_absent j prev :
  id j ∉ id <$> prev → save_updater j prev = prev ++ [j].
Proof.
  intros Hfresh. unfold save_updater.
  destruct (list_find _ prev) as [[n job]|] eqn:Hfind; [|done].
  apply list_find_Some in Hfind as (Hn & Hid & _).
  destruct Hfresh. apply list_elem_of_fmap. exists job.
  split; [done|]. by eapply list_elem_of_lookup_2.
Qed.

Lemma save_updater_saved j prev : id j ∈ id <$> save_updater j prev.
Proof.
  destruct (decide (id j ∈ id <$> prev)) as [Hin|Hout].
  - by rewrite save_updater_present.
  - rewrite save_updater_absent by done.
    rewrite fmap_app, elem_of_app. right. cbn. apply list_elem_of_here.
Qed.

Lemma unsave_updater_absent jobId prev :
  jobId ∉ id <$> prev → unsave_updater jobId prev = prev.
Proof.
  intros Hout. unfold unsave_updater.
  induction prev as [|job prev IH]; [done|].
  rewrite fmap_cons, not_elem_of_cons in Hout. destruct Hout as [Hne Hout].
  rewrite filter_cons_True by done. by rewrite IH.
Qed.

Lemma isJobSaved_elem jobId st :
  isJobSaved jobId st = true ↔ jobId ∈ id <$> savedJobs st.
Proof.
  unfold isJobSaved. rewrite existsb_exists, list_elem_of_fmap.
  split.
  - intros (job & Hin%list_elem_of_In & Hid%bool_decide_eq_true). eauto.
  - intros (job & Hid & Hin). exists job.
    split; [by apply list_elem_of_In | by apply bool_decide_eq_true].
Qed.

Lemma setSavedJobs_id st : setSavedJobs (λ prev, prev) st = st.
Proof. by destruct st. Qed.

(** A sublist without the identifier survives the removal. *)
Lemma sublist_unsave_updater jobId l prev :
  l `sublist_of` prev →
  Forall (λ job, id job ≠ jobId) l →
  l `sublist_of` unsave_updater jobId prev.
Proof.
  unfold unsave_updater.
  induction 1 as [|job l1 l2 Hsub IH|job l1 l2 Hsub IH]; intros Hall.
  - done.
  - apply Forall_cons in Hall as [Hne Hall].
    rewrite filter_cons_True by done. apply sublist_skip. by apply IH.
  - destruct (decide (id job ≠ jobId)).
    + rewrite filter_cons_True by done. apply sublist_cons. by apply IH.
    + rewrite filter_cons_False by done. by apply IH.
Qed.
End SavedJobsStore.

(** C6: on a saved collection with unique identifiers, a job is saved
    after [save]; saving a job whose identifier is present changes nothing,
    so that [save] is idempotent and a second [save] keeps the length;
    unsaving an identifier that is not present changes nothing. Both
    operations keep the identifiers unique. *)
Theorem C6_save_idempotent_unsave_noop (st : State) (j : Job) :
  NoDup (id <$> savedJobs st) →
  isJobSaved (id j) (handleSaveJob j st) = true
  ∧ (id j ∈ id <$> savedJobs st → handleSaveJob j st = st)
  ∧ handleSaveJob j (handleSaveJob j st) = handleSaveJob j st
  ∧ length (savedJobs (handleSaveJob j (handleSaveJob j st)))
    = length (savedJobs (handleSaveJob j st))
  ∧ (∀ jobId, jobId ∉ id <$> savedJobs st → handleUnsaveJob jobId st = st)
  ∧ NoDup (id <$> savedJobs (handleSaveJob j st))
  ∧ (∀ jobId, NoDup (id <$> savedJobs (handleUnsaveJob jobId st))).
Proof.
  intros Hunique.
  assert (Hidem : handleSaveJob j (handleSaveJob j st) = handleSaveJob j st).
  { unfold handleSaveJob at 1. unfold setSavedJobs at 1.
    rewrite (save_updater_present j (savedJobs (handleSaveJob j st)))
      by apply save_updater_saved.
    by destruct st. }
  split; [apply isJobSaved_elem, save_updater_saved|].
  split.
  { intros Hin. unfold handleSaveJob, setSavedJobs.
    rewrite save_updater_present by done. by destruct st. }
  split; [exact Hidem|]. split; [by rewrite Hidem|]. split.
  { intros jobId Hout. unfold handleUnsaveJob, setSavedJobs.
    rewrite unsave_updater_absent by done. by destruct st. }
  split.
  - cbn. destruct (decide (id j ∈ id <$> savedJobs st)) as [Hin|Hout].
    + by rewrite save_updater_present.
    + rewrite save_updater_absent, fmap_app by done.
      apply NoDup_app. split; [done|]. split; [|apply NoDup_singleton].
      intros x Hx ->%list_elem_of_singleton. done.
  - intros jobId. cbn. unfold unsave_updater.
    eapply sublist_NoDup; [exact Hunique|].
    apply fmap_sublist, sublist_filter.
Qed.

Lemma C6_save_idempotent_unsave_noop_witness :
  isJobSaved "c" (handleSaveJob (Samples.job "c") Samples.two_saved) = true
  ∧ handleSaveJob (Samples.job "a") Samples.two_saved = Samples.two_saved
  ∧ handleUnsaveJob "z" Samples.two_saved = Samples.two_saved.
Proof.
  assert (Hunique : NoDup (id <$> savedJobs Samples.two_saved)).
  { apply (bool_decide_unpack _). vm_compute. exact I. }
  split; [|split].
  - exact (proj1 (C6_save_idempotent_unsave_noop Samples.two_saved
                    (Samples.job "c") Hunique)).
  - destruct (C6_save_idempotent_unsave_noop Samples.two_saved
                (Samples.job "a") Hunique) as (_ & Hpresent & _).
    apply Hpresent. apply (bool_decide_unpack _). vm_compute. exact I.
  - destruct (C6_save_idempotent_unsave_noop Samples.two_saved
                (Samples.job "a") Hunique) as (_ & _ & _ & _ & Habsent & _).
    apply Habsent. apply (bool_decide_unpack _). vm_compute. exact I.
Defined.

(** C10: saving a job whose identifier is not present appends it at the
    end, behind the earlier entries as they were; unsaving an identifier
    leaves a sublist of the collection (entries unchanged, order kept) that
    holds exactly the entries with another identifier, and every such
    entry as often as before: any sublist free of the identifier is a
    sublist of the result. Neither touches the search results or the
    page. *)
Theorem C10_save_appends_unsave_filters (st : State) (j : Job) (jobId : string) :
  (id j ∉ id <$> savedJobs st →
     savedJobs (handleSaveJob j st) = savedJobs st ++ [j])
  ∧ savedJobs (handleUnsaveJob jobId st) `sublist_of` savedJobs st
  ∧ (∀ job, job ∈ savedJobs (handleUnsaveJob jobId st)
            ↔ job ∈ savedJobs st ∧ id job ≠ jobId)
  ∧ (∀ l, l `sublist_of` savedJobs st →
          Forall (λ job, id job ≠ jobId) l →
          l `sublist_of` savedJobs (handleUnsaveJob jobId st))
  ∧ jobs (handleSaveJob j st) = jobs st
  ∧ jobs (handleUnsaveJob jobId st) = jobs st
  ∧ currentPage (handleSaveJob j st) = currentPage st
  ∧ currentPage (handleUnsaveJob jobId st) = currentPage st.
Proof.
  split; [intros Hfresh; cbn; by apply save_updater_absent|].
  split; [cbn; apply sublist_filter|].
  split.
  { intros job. cbn. unfold unsave_updater.
    rewrite list_elem_of_filter. tauto. }
  split; [|done].
  intros l Hsub Hall. cbn. by apply sublist_unsave_updater.
Qed.

Lemma C10_save_appends_unsave_filters_witness :
  savedJobs (handleSaveJob (Samples.job "c") Samples.two_saved)
  = [Samples.job "a"; Samples.job "b"; Samples.job "c"]
  ∧ [Samples.job "b"]
    `sublist_of` savedJobs (handleUnsaveJob "a" Samples.two_saved).
Proof.
  destruct (C10_save_appends_unsave_filters Samples.two_saved
              (Samples.job "c") "a") as (Happend & _ & _ & Hmax & _).
  split.
  - apply Happend. apply (bool_decide_unpack _). vm_compute. exact I.
  - apply Hmax.
    + apply sublist_cons. reflexivity.
    + apply (bool_decide_unpack _). vm_compute. exact I.
Defined.

(** ** One search on its own *)

Section Reveal.
Implicit Types (all : list Job) (st : State) (c : Z).

Lemma reveal_Returned fuel st : reveal fuel Returned st = (st, Returned, []).
Proof. by destruct fuel. Qed.

(** The loop, run symbolically over the five sources. *)
Lemma fetchJobs_alone_fulfilled all currentFilters st fuel :
  all ≠ [] → (5 ≤ fuel)%nat →
  let c := Math_ceil_div (Z.of_nat (length all))
                         (Z.of_nat (length JOB_SOURCES)) in
  ∃ st',
    fetchJobs_alone fuel currentFilters (Fulfilled all) st
    = (st', Returned, five_batches all c)
    ∧ jobs st' = concat (five_batches all c)
    ∧ scrapingStatus st' = mkStatus JOB_SOURCES None
    ∧ isLoading st' = false
    ∧ error st' = None.
Proof.
  intros Hne Hfuel c.
  do 5 (destruct fuel as [|fuel]; [lia|]).
  unfold fetchJobs_alone, fetchJobs, after_findJobs.
  destruct (decide (length all = 0%nat)) as [Hlen|_]; [by destruct all|].
  fold c. generalize c. clear c. intros c.
  cbn -[Z.add Z.mul jobsToAdd].
  rewrite reveal_Returned.
  cbn -[Z.add Z.mul jobsToAdd].
  replace (0 + c) with (1 * c) by lia.
  replace (1 * c + c) with (2 * c) by lia.
  replace (2 * c + c) with (3 * c) by lia.
  replace (3 * c + c) with (4 * c) by lia.
  replace 0 with (0 * c) at 1 by lia.
  eexists. split; [reflexivity|].
  cbn -[Z.add Z.mul jobsToAdd].
  rewrite app_nil_r, <- !(assoc_L (++)). done.
Qed.

(** Five windows of a width that covers a fifth of the list cover it. *)
Lemma concat_five_batches all c :
  0 ≤ c → Z.of_nat (length all) ≤ 5 * c →
  concat (five_batches all c) = all.
Proof.
  intros Hc Hcover. unfold five_batches, jobsToAdd.
  cbn [fmap list_fmap seq concat length JOB_SOURCES].
  rewrite app_nil_r.
  change (slice (Z.of_nat 0 * c) (Z.of_nat 0 * c + c) all)
    with (take (Z.to_nat (Z.of_nat 0 * c)) all ++ slice (Z.of_nat 0 * c) (Z.of_nat 0 * c + c) all).
  rewrite !(assoc_L (++)).
  rewrite take_app_slice by lia.
  replace (Z.of_nat 0 * c + c) with (Z.of_nat 1 * c) by lia.
  rewrite take_app_slice by lia.
  replace (Z.of_nat 1 * c + c) with (Z.of_nat 2 * c) by lia.
  rewrite take_app_slice by lia.
  replace (Z.of_nat 2 * c + c) with (Z.of_nat 3 * c) by lia.
  rewrite take_app_slice by lia.
  replace (Z.of_nat 3 * c + c) with (Z.of_nat 4 * c) by lia.
  rewrite take_app_slice by lia.
  apply take_ge. lia.
Qed.
End Reveal.

(** C2: on a non-empty fetched list of length [L] the reveal loop runs to
    its end (five timers suffice) and appends exactly 5 batches; with
    [c = ceil(L/5)], batch [i] holds exactly the elements of the list at the
    positions [i*c .. i*c + c - 1] that exist; the batches concatenated are
    the list, which is also the final value of [jobs]; in the end every
    source is completed, in order, and no source is current. *)
Theorem C2_reveal_emits_five_contiguous_batches
    (all : list Job) (currentFilters : SearchFilters) (st : State) (fuel : nat) :
  all ≠ [] → (5 ≤ fuel)%nat →
  let c := Math_ceil_div (Z.of_nat (length all)) 5 in
  let r := fetchJobs_alone fuel currentFilters (Fulfilled all) st in
  let st' := r.1.1 in
  let batches := r.2 in
  r.1.2 = Returned
  ∧ length batches = 5%nat
  ∧ (5 * (c - 1) < Z.of_nat (length all) ≤ 5 * c)
  ∧ (∀ i k : nat, (i < 5)%nat →
       batches !! i ≫= (λ batch, batch !! k) =
         if decide (Z.of_nat k < c)
         then all !! (Z.to_nat (Z.of_nat i * c) + k)%nat
         else None)
  ∧ concat batches = all
  ∧ jobs st' = all
  ∧ completed (scrapingStatus st') = JOB_SOURCES
  ∧ current (scrapingStatus st') = None
  ∧ isLoading st' = false.
Proof.
  intros Hne Hfuel c r.
  destruct (fetchJobs_alone_fulfilled all currentFilters st fuel Hne Hfuel)
    as (st1 & Hrun & Hjobs & Hstatus & Hloading & _).
  change (Z.of_nat (length JOB_SOURCES)) with 5 in Hrun, Hjobs. fold c in Hrun, Hjobs.
  subst r. rewrite Hrun. cbn [fst snd].
  pose proof (Math_ceil_div_spec (Z.of_nat (length all)) 5 ltac:(lia)) as Hceil.
  fold c in Hceil.
  assert (Hc : 0 ≤ c) by lia.
  split; [done|]. split; [done|]. split; [exact Hceil|]. split.
  { intros i k Hi. unfold five_batches, jobsToAdd.
    do 5 (destruct i as [|i];
          [cbn [fmap list_fmap seq lookup list_lookup mbind option_bind];
           apply lookup_slice_window; lia|]).
    lia. }
  split; [apply concat_five_batches; lia|].
  split; [rewrite Hjobs; apply concat_five_batches; lia|].
  by rewrite Hstatus, Hloading.
Qed.

Lemma C2_reveal_emits_five_contiguous_batches_witness :
  length (fetchJobs_alone 5 Samples.some_filters
            (Fulfilled Samples.ten_jobs) (initial [])).2 = 5%nat
  ∧ concat (fetchJobs_alone 5 Samples.some_filters
              (Fulfilled Samples.ten_jobs) (initial [])).2 = Samples.ten_jobs
  ∧ jobs (fetchJobs_alone 5 Samples.some_filters
            (Fulfilled Samples.ten_jobs) (initial [])).1.1 = Samples.ten_jobs.
Proof.
  assert (Hne : Samples.ten_jobs ≠ []) by discriminate.
  destruct (C2_reveal_emits_five_contiguous_batches Samples.ten_jobs
              Samples.some_filters (initial []) 5 Hne ltac:(lia))
    as (_ & Hlen & _ & _ & Hconcat & Hjobs & _).
  exact (conj Hlen (conj Hconcat Hjobs)).
Defined.

(** C7: on an empty fetched list the activation returns without awaiting a
    single timer, having appended no batch: [jobs] is empty, every source
    is completed and none is current. *)
Theorem C7_empty_result_skips_reveal
    (currentFilters : SearchFilters) (st : State) (fuel : nat) :
  let st0 := (fetchJobs currentFilters st).1 in
  let r := fetchJobs_alone fuel currentFilters (Fulfilled []) st in
  (after_findJobs (Fulfilled []) st0).2 = Returned
  ∧ r.1.2 = Returned
  ∧ r.2 = []
  ∧ jobs r.1.1 = []
  ∧ scrapingStatus r.1.1 = mkStatus JOB_SOURCES None
  ∧ isLoading r.1.1 = false
  ∧ error r.1.1 = None.
Proof.
  unfold fetchJobs_alone. cbn -[reveal].
  case_decide; [|done]. rewrite reveal_Returned. by cbn.
Qed.

(** C3, as the specification has it, fails in its last part: after a
    failed [findJobs] the status still names the first source as current. *)
Lemma C3_status_current_not_cleared :
  current (scrapingStatus
             (fetchJobs_alone 5 Samples.some_filters
                (Rejected GeminiService.fetch_failure) (initial [])).1.1)
  = Some "LinkedIn"%string
  ∧ current (scrapingStatus
               (fetchJobs_alone 5 Samples.some_filters
                  (Rejected GeminiService.fetch_failure) (initial [])).1.1)
    ≠ None.
Proof. by vm_compute. Qed.

(** C3, amended: when [findJobs] is rejected the activation returns at
    once with the message of the error stored (the message of [findJobs]
    for its own failure, a fixed text for a thrown value that is not an
    [Error]), [jobs] empty, [isLoading] false and no batch appended; the
    status is left as the start of the search set it: nothing completed,
    the first source current. *)
Theorem C3_failed_fetch
    (currentFilters : SearchFilters) (err : Thrown) (st : State) (fuel : nat) :
  let r := fetchJobs_alone fuel currentFilters (Rejected err) st in
  r.1.2 = Returned
  ∧ r.2 = []
  ∧ error r.1.1 = Some (catch_message err)
  ∧ catch_message GeminiService.fetch_failure
    = "Failed to fetch job listings from Gemini API."%string
  ∧ jobs r.1.1 = []
  ∧ isLoading r.1.1 = false
  ∧ scrapingStatus r.1.1 = mkStatus [] (Some "LinkedIn"%string).
Proof.
  unfold fetchJobs_alone. cbn -[reveal]. rewrite reveal_Returned. by cbn.
Qed.

(** ** Searches that overlap *)

(** C1, as the specification has it, fails: nothing in [fetchJobs] tells a
    superseded activation to stop. Here the first search has fetched ten
    jobs and revealed its first batch when [handleSearch] is called again;
    the second search fetches the single job [b0]. The first activation
    goes on appending its remaining batches and completing its sources:
    when both have returned, [jobs] holds eight jobs of the first search
    around [b0], and the status lists sources of both. *)
Lemma C1_stale_batches_appended :
  in_flight <$> run Samples.overlapping_searches (mounted []) = Some []
  ∧ latest_fetched Samples.overlapping_searches = [Samples.job "b0"]
  ∧ (λ sys, id <$> jobs (app sys))
      <$> run Samples.overlapping_searches (mounted [])
    = Some ["a2"; "a3"; "a4"; "a5"; "b0"; "a6"; "a7"; "a8"; "a9"]%string
  ∧ (λ sys, jobs (app sys)) <$> run Samples.overlapping_searches (mounted [])
    ≠ Some (latest_fetched Samples.overlapping_searches)
  ∧ (λ sys, completed (scrapingStatus (app sys)))
      <$> run Samples.overlapping_searches (mounted [])
    ≠ Some JOB_SOURCES.
Proof.
  split; [by vm_compute|]. split; [by vm_compute|].
  split; [by vm_compute|]. split; by vm_compute.
Qed.

Section OfferedRuns.
Implicit Types (latest : list Job) (sys : System) (st : State).

Lemma activation_ok_frame latest a st st' :
  jobs st' = jobs st → isLoading st' = isLoading st →
  activation_ok latest a st → activation_ok latest a st'.
Proof.
  intros Hjobs Hloading. destruct a; cbn; rewrite Hjobs, ?Hloading; done.
Qed.

Lemma one_at_a_time_frame latest sys st' :
  jobs st' = jobs (app sys) → isLoading st' = isLoading (app sys) →
  one_at_a_time latest sys →
  one_at_a_time latest (mkSystem st' (activations sys)).
Proof.
  intros Hjobs Hloading (earlier & a & Hacts & Hret & Hok).
  exists earlier, a. eauto using activation_ok_frame.
Qed.

(** Only the latest activation can be suspended. *)
Lemma suspended_is_latest latest sys earlier a k b :
  activations sys = earlier ++ [a] →
  Forall (λ x, x = Returned) earlier →
  activations sys !! k = Some b → b ≠ Returned →
  k = length earlier ∧ b = a.
Proof.
  intros Hacts Hret Hk Hb. rewrite Hacts in Hk.
  destruct (decide (k < length earlier)%nat) as [Hlt|Hge].
  - rewrite lookup_app_l in Hk by done.
    rewrite Forall_lookup in Hret. by destruct Hb, (Hret k b Hk).
  - rewrite lookup_app_r in Hk by lia.
    destruct (k - length earlier)%nat as [|n] eqn:Hn; cbn in Hk.
    + split; [lia | congruence].
    + by destruct n.
Qed.

Lemma resume_latest sys earlier a r :
  activations sys = earlier ++ [a] →
  activations (resume (length earlier) sys r) = earlier ++ [r.2].
Proof.
  intros Hacts. cbn. rewrite Hacts.
  rewrite insert_app_r_alt by lia. by rewrite Nat.sub_diag.
Qed.

Lemma mounted_one_at_a_time loaded : one_at_a_time [] (mounted loaded).
Proof. exists [], (AwaitFindJobs (filters (initial loaded))). by cbn. Qed.

(** The loop test keeps the invariant when [jobs] is the part of the
    list before the next window. *)
Lemma loop_test_ok all (i : nat) st :
  let per := Math_ceil_div (Z.of_nat (length all))
                           (Z.of_nat (length JOB_SOURCES)) in
  all ≠ [] → isLoading st = true →
  (i ≤ length JOB_SOURCES)%nat →
  jobs st = take (Z.to_nat (Z.of_nat i * per)) all →
  activation_ok all (loop_test all (Z.of_nat i * per) per i st).2
                    (loop_test all (Z.of_nat i * per) per i st).1.
Proof.
  intros per Hne Hloading Hi Hjobs. unfold loop_test.
  destruct (JOB_SOURCES !! i) as [source|] eqn:Hsource; cbn.
  - by rewrite Hloading.
  - apply lookup_ge_None in Hsource.
    rewrite Hjobs. apply take_ge.
    pose proof (Math_ceil_div_spec (Z.of_nat (length all))
                  (Z.of_nat (length JOB_SOURCES)) ltac:(by cbn)) as Hceil.
    fold per in Hceil.
    assert (i = length JOB_SOURCES) as -> by lia. lia.
Qed.

Lemma step_one_at_a_time latest ev sys sys' :
  one_at_a_time latest sys →
  offered ev sys = true →
  step ev sys = Some sys' →
  one_at_a_time (fetched_after ev latest) sys'.
Proof.
  intros Hinv Hoff Hstep.
  destruct ev as [newFilters|k outcome|k|view|page|job|jobId]; cbn in Hstep.
  - (* SubmitSearch *)
    destruct Hinv as (earlier & a & Hacts & Hret & Hok).
    injection Hstep as <-. cbn in Hoff.
    apply andb_true_iff in Hoff as [Hidle%negb_true_iff _].
    assert (a = Returned) as ->.
    { destruct a; cbn in Hok; [| |done]; destruct Hok as [Hl _]; congruence. }
    exists (earlier ++ [Returned]), (AwaitFindJobs newFilters).
    cbn. rewrite Hacts. split; [done|]. split; [|done].
    apply Forall_app. split; [done|]. by apply Forall_singleton.
  - (* FindJobsSettled *)
    destruct Hinv as (earlier & a & Hacts & Hret & Hok).
    destruct (activations sys !! k) as [[f| |]|] eqn:Hk; try done.
    injection Hstep as <-.
    destruct (suspended_is_latest latest sys earlier a k _ Hacts Hret Hk)
      as [-> <-]; [done|].
    destruct Hok as (Hloading & Hjobs & _).
    exists earlier, (after_findJobs outcome (app sys)).2.
    split; [by eapply resume_latest|]. split; [done|].
    cbn [resume app fst]. destruct outcome as [all|err]; cbn.
    + case_decide as Hlen; cbn.
      * destruct all; [done | discriminate].
      * assert (Hne : all ≠ []) by (by destruct all).
        apply (loop_test_ok all 0 (app sys) Hne Hloading); [cbn; lia|].
        by rewrite Hjobs.
    + done.
  - (* TimeoutFired *)
    destruct Hinv as (earlier & a & Hacts & Hret & Hok).
    destruct (activations sys !! k) as [[|all added per i source|]|] eqn:Hk;
      try done.
    injection Hstep as <-.
    destruct (suspended_is_latest latest sys earlier a k _ Hacts Hret Hk)
      as [-> <-]; [done|].
    destruct Hok as (Hloading & -> & Hne & -> & -> & Hsource & Hjobs).
    set (per := Math_ceil_div _ _) in *.
    exists earlier, (after_timeout all (Z.of_nat i * per) per i source (app sys)).2.
    split; [by eapply resume_latest|]. split; [done|].
    cbn [resume app fst fetched_after]. unfold after_timeout.
    assert (Hper : 0 ≤ per).
    { pose proof (Math_ceil_div_spec (Z.of_nat (length all))
                    (Z.of_nat (length JOB_SOURCES)) ltac:(by cbn)).
      fold per in H. cbn in H. lia. }
    replace (Z.of_nat i * per + per) with (Z.of_nat (i + 1) * per) by lia.
    apply lookup_lt_Some in Hsource.
    apply loop_test_ok; [done|done|lia|].
    fold per. cbn. rewrite Hjobs. unfold jobsToAdd.
    rewrite take_app_slice by lia. f_equal. lia.
  - injection Hstep as <-. by apply one_at_a_time_frame.
  - injection Hstep as <-. by apply one_at_a_time_frame.
  - injection Hstep as <-. by apply one_at_a_time_frame.
  - injection Hstep as <-. by apply one_at_a_time_frame.
Qed.

Lemma run_offered_one_at_a_time evs : ∀ latest sys sys',
  one_at_a_time latest sys →
  run_offered evs sys = Some sys' →
  one_at_a_time (foldl (λ l ev, fetched_after ev l) latest evs) sys'.
Proof.
  induction evs as [|ev evs IH]; intros latest sys sys' Hinv Hrun; cbn in *.
  - by injection Hrun as <-.
  - destruct (offered ev sys) eqn:Hoff; [|done].
    destruct (step ev sys) as [sys1|] eqn:Hstep; [|done].
    eapply IH; [|exact Hrun]. by eapply step_one_at_a_time.
Qed.

Lemma filter_returned (earlier : list Activation) :
  Forall (λ x, x = Returned) earlier →
  filter (λ a, suspended a = true) earlier = [].
Proof.
  induction 1 as [|a earlier -> _ IH]; [done|].
  by rewrite filter_cons_False.
Qed.

Lemma in_flight_latest latest sys :
  one_at_a_time latest sys →
  ∃ a, activation_ok latest a (app sys)
       ∧ in_flight sys = if suspended a then [a] else [].
Proof.
  intros (earlier & a & Hacts & Hret & Hok). exists a. split; [done|].
  unfold in_flight. rewrite Hacts, filter_app, filter_returned by done.
  by destruct a.
Qed.
End OfferedRuns.

(** C1, amended: [fetchJobs] has no means to stop a superseded activation;
    what keeps searches from overlapping is the search form, whose submit
    button is disabled while [isLoading] is true. On every run of the
    events that the page offers, started from the mounted application: at
    most one activation of [fetchJobs] is in flight; while one is in flight
    no submission is offered; [jobs] is at every moment a prefix of the list
    fetched by the latest search, and is that list in full once the
    activation has returned. *)
Theorem C1_one_search_at_a_time
    (loaded : list Job) (evs : list Event) (sys : System) :
  run_offered evs (mounted loaded) = Some sys →
  (length (in_flight sys) ≤ 1)%nat
  ∧ (in_flight sys ≠ [] →
     ∀ newFilters, offered (SubmitSearch newFilters) sys = false)
  ∧ jobs (app sys) `prefix_of` latest_fetched evs
  ∧ (in_flight sys = [] → jobs (app sys) = latest_fetched evs).
Proof.
  intros Hrun.
  pose proof (run_offered_one_at_a_time evs [] (mounted loaded) sys
                (mounted_one_at_a_time loaded) Hrun) as Hinv.
  fold (latest_fetched evs) in Hinv.
  destruct (in_flight_latest _ _ Hinv) as (a & Hok & ->).
  destruct a as [f|all added per i source|]; cbn in *.
  - destruct Hok as (Hloading & -> & ->).
    split; [lia|]. split; [|split; done].
    intros _ newFilters. by rewrite Hloading.
  - destruct Hok as (Hloading & <- & _ & _ & _ & _ & ->).
    split; [lia|]. split; [|split; [apply prefix_take | done]].
    intros _ newFilters. by rewrite Hloading.
  - rewrite Hok. split; [lia|]. done.
Qed.

Lemma C1_one_search_at_a_time_witness :
  run_offered Samples.first_batch (mounted [])
  = Some (mkSystem
            (setScrapingStatus (λ _, mkStatus ["LinkedIn"%string]
                                            (Some "Indeed"%string))
               (setJobs (λ _, take 2 Samples.ten_jobs) (initial [])))
            [AwaitTimeout Samples.ten_jobs 2 2 1 "Indeed"])
  ∧ take 2 Samples.ten_jobs `prefix_of` latest_fetched Samples.first_batch.
Proof.
  assert (Hrun : run_offered Samples.first_batch (mounted [])
                 = Some (mkSystem
                     (setScrapingStatus (λ _, mkStatus ["LinkedIn"%string]
                                                     (Some "Indeed"%string))
                        (setJobs (λ _, take 2 Samples.ten_jobs) (initial [])))
                     [AwaitTimeout Samples.ten_jobs 2 2 1 "Indeed"]))
    by (by vm_compute).
  split; [exact Hrun|].
  exact (proj1 (proj2 (proj2
           (C1_one_search_at_a_time [] Samples.first_batch _ Hrun)))).
Defined.

(** ** The Gemini service *)

(** C8, as the specification has it, fails: the response text [[{}]]
    parses to an array holding one object without any field, which does
    not conform to the Job shape, and [findJobs] returns it to its
    caller. *)
Lemma C8_nonconforming_response_returned :
  GeminiService.findJobs JSON.parse Samples.answers_empty_object
    Samples.some_filters
  = Fulfilled (JSON.Array [JSON.Object []])
  ∧ GeminiService.conforms_to_Job_list (JSON.Array [JSON.Object []]) = false.
Proof. by vm_compute. Qed.

(** C8, amended: [findJobs] checks that the response is JSON and nothing
    more; the Job schema travels with the request only. When the request
    fails, or when [JSON.parse] rejects the response text, [findJobs]
    fails with its own error; whatever value the text parses to is returned
    as it is. *)
Theorem C8_findJobs_checks_syntax_only
    (JSON_parse : string → Settled JSON.value)
    (generateContent : SearchFilters → Settled string)
    (filters : SearchFilters) :
  (∀ e, generateContent filters = Rejected e →
        GeminiService.findJobs JSON_parse generateContent filters
        = Rejected GeminiService.fetch_failure)
  ∧ (∀ text e, generateContent filters = Fulfilled text →
               JSON_parse text = Rejected e →
               GeminiService.findJobs JSON_parse generateContent filters
               = Rejected GeminiService.fetch_failure)
  ∧ (∀ text v, generateContent filters = Fulfilled text →
               JSON_parse text = Fulfilled v →
               GeminiService.findJobs JSON_parse generateContent filters
               = Fulfilled v).
Proof.
  unfold GeminiService.findJobs. split; [|split].
  - by intros e ->.
  - by intros text e -> ->.
  - by intros text v -> ->.
Qed.

Lemma C8_findJobs_checks_syntax_only_witness :
  GeminiService.findJobs JSON.parse Samples.answers_broken_text
    Samples.some_filters
  = Rejected GeminiService.fetch_failure
  ∧ GeminiService.findJobs JSON.parse Samples.answers_empty_object
      Samples.some_filters
    = Fulfilled (JSON.Array [JSON.Object []]).
Proof.
  split.
  - apply (proj1 (proj2 (C8_findJobs_checks_syntax_only JSON.parse
                           Samples.answers_broken_text Samples.some_filters))
             "[1,]"%string JSON.SyntaxError); reflexivity.
  - apply (proj2 (proj2 (C8_findJobs_checks_syntax_only JSON.parse
                           Samples.answers_empty_object Samples.some_filters))
             "[{}]"%string); reflexivity.
Defined.

(** ** Loading the saved jobs *)

(** C9, as the specification has it, fails: the stored text [null] is
    JSON, so nothing is thrown and nothing is logged, and the initial
    collection is [null], which is not a list; the first render then
    throws when it reads [savedJobs.length]. *)
Lemma C9_stored_null_breaks_first_render :
  SavedJobs.initializer JSON.parse Samples.stores_null = (JSON.Null, [])
  ∧ SavedJobs.savedJobs_length
      (SavedJobs.initializer JSON.parse Samples.stores_null).1
    = Rejected SavedJobs.TypeError.
Proof. by vm_compute. Qed.

(** C9, amended: the initializer of [savedJobs] itself never throws: it
    yields the empty list when the key is absent, when the store cannot
    be read, and when the stored string does not parse (a failed read or
    parse is written to the console and goes no further; the empty
    string yields the empty list before any parsing, so there is no
    failure to log for it), and otherwise the value that [JSON.parse]
    returns, unchecked. Whenever the stored text, if it parses, denotes a
    list, the initial collection is a list and the first render reads its
    length without failing. *)
Theorem C9_saved_jobs_loaded_or_empty
    (JSON_parse : string → Settled JSON.value) :
  (∀ v, JSON_parse ""%string ≠ Fulfilled v) →
  SavedJobs.initializer JSON_parse SavedJobs.Absent = (JSON.Array [], [])
  ∧ (∀ e, SavedJobs.initializer JSON_parse (SavedJobs.Throws e)
          = (JSON.Array [],
             ["Error reading saved jobs from localStorage"%string]))
  ∧ (∀ saved e,
       JSON_parse saved = Rejected e →
       (SavedJobs.initializer JSON_parse (SavedJobs.Stored saved)).1
       = JSON.Array []
       ∧ (saved ≠ ""%string →
          (SavedJobs.initializer JSON_parse (SavedJobs.Stored saved)).2
          = ["Error reading saved jobs from localStorage"%string]))
  ∧ (∀ saved v,
       JSON_parse saved = Fulfilled v →
       SavedJobs.initializer JSON_parse (SavedJobs.Stored saved) = (v, []))
  ∧ (∀ got,
       (∀ saved v, got = SavedJobs.Stored saved →
                   JSON_parse saved = Fulfilled v →
                   ∃ elements, v = JSON.Array elements) →
       ∃ elements,
         (SavedJobs.initializer JSON_parse got).1 = JSON.Array elements
         ∧ SavedJobs.savedJobs_length (SavedJobs.initializer JSON_parse got).1
           = Fulfilled (Some (JSON.Number (Z.of_nat (length elements))))).
Proof.
  intros Hempty. unfold SavedJobs.initializer, SavedJobs.try_block.
  split; [done|]. split; [done|]. split; [|split].
  - intros saved e Hparse. case_decide as Hsaved; [done|].
    by rewrite Hparse.
  - intros saved v Hparse. case_decide as Hsaved.
    + subst saved. by destruct (Hempty v).
    + by rewrite Hparse.
  - intros got Hlist.
    destruct got as [e| |saved]; [by exists [] | by exists [] |].
    case_decide as Hsaved; [by exists []|].
    destruct (JSON_parse saved) as [v|e] eqn:Hparse; [|by exists []].
    destruct (Hlist saved v eq_refl Hparse) as [elements ->].
    by exists elements.
Qed.

Lemma C9_saved_jobs_loaded_or_empty_witness :
  (SavedJobs.initializer JSON.parse (SavedJobs.Stored "[1,]")).1 = JSON.Array []
  ∧ SavedJobs.initializer JSON.parse (SavedJobs.Stored "[{}]")
    = (JSON.Array [JSON.Object []], [])
  ∧ SavedJobs.savedJobs_length
      (SavedJobs.initializer JSON.parse (SavedJobs.Stored "[{}]")).1
    = Fulfilled (Some (JSON.Number 1)).
Proof.
  assert (Hempty : ∀ v, JSON.parse ""%string ≠ Fulfilled v) by (by intros v).
  destruct (C9_saved_jobs_loaded_or_empty JSON.parse Hempty)
    as (_ & _ & Hfails & Hparses & Hlist).
  split; [|split].
  - apply (proj1 (Hfails "[1,]"%string JSON.SyntaxError eq_refl)).
  - apply Hparses. reflexivity.
  - destruct (Hlist (SavedJobs.Stored "[{}]")) as (elements & Hvalue & Hlength).
    + intros saved v [= <-] Hparse. vm_compute in Hparse.
      injection Hparse as <-. by exists [JSON.Object []].
    + rewrite Hlength. vm_compute in Hvalue. by injection Hvalue as <-.
Defined.

(** * Further properties of the code *)

(** ** Pages *)

Section Pages.
Context {A : Type}.
Implicit Types (l : list A).

(** The windows of width [c] that end at [c], [2c], ..., [n c]. *)
Lemma concat_windows l (c : Z) (n : nat) :
  0 ≤ c →
  concat ((λ p, slice (p * c - c) (p * c) l) <$> seqZ 1 (Z.of_nat n))
  = take (Z.to_nat (Z.of_nat n * c)) l.
Proof.
  intros Hc. induction n as [|n IH].
  - by rewrite Z.mul_0_l.
  - rewrite seqZ_S, fmap_app, concat_app, IH. cbn [fmap list_fmap concat].
    rewrite app_nil_r.
    replace ((1 + Z.of_nat n) * c - c) with (Z.of_nat n * c) by ring.
    replace ((1 + Z.of_nat n) * c) with (Z.of_nat n * c + c) by ring.
    rewrite take_app_slice by nia. do 2 f_equal. lia.
Qed.
End Pages.

Lemma totalPages_bounds (st : State) :
  9 * (totalPages st - 1) < Z.of_nat (length (jobsToDisplay st))
                          ≤ 9 * totalPages st.
Proof. apply (Math_ceil_div_spec _ 9). lia. Qed.

Lemma currentJobsOnPage_window (st : State) :
  1 ≤ currentPage st →
  currentJobsOnPage st
  = take 9 (drop (Z.to_nat ((currentPage st - 1) * 9)) (jobsToDisplay st)).
Proof.
  intros Hp.
  unfold currentJobsOnPage, indexOfFirstJob, indexOfLastJob, JOBS_PER_PAGE.
  replace (currentPage st * 9 - 9) with ((currentPage st - 1) * 9) by lia.
  replace (currentPage st * 9) with ((currentPage st - 1) * 9 + 9) by lia.
  by rewrite slice_window by lia.
Qed.

(** X1: the pages 1 to [totalPages], one after the other, are the
    displayed collection: every job is on exactly one page, in order. *)
Theorem pages_partition_collection (st : State) :
  concat (all_pages st) = jobsToDisplay st.
Proof.
  pose proof (totalPages_bounds st) as Hb.
  unfold all_pages.
  assert (Htp : 0 ≤ totalPages st) by lia.
  rewrite <- (Z2Nat.id (totalPages st)) at 1 by done.
  erewrite (list_fmap_ext _ (λ p, slice (p * 9 - 9) (p * 9) (jobsToDisplay st)));
    [|done].
  rewrite concat_windows by lia.
  apply take_ge. lia.
Qed.

(** X2: a page beyond the last one, and page 0, show nothing. *)
Theorem page_out_of_range_is_empty (st : State) :
  totalPages st < currentPage st ∨ currentPage st = 0 →
  currentJobsOnPage st = [].
Proof.
  pose proof (totalPages_bounds st) as Hb.
  intros [Hp | Hp].
  - rewrite currentJobsOnPage_window by lia.
    rewrite drop_ge by lia. apply take_nil.
  - unfold currentJobsOnPage, indexOfFirstJob, indexOfLastJob, JOBS_PER_PAGE.
    rewrite Hp. unfold slice, relative_index.
    change (0 * 9 - 9 <? 0) with true. change (0 * 9 <? 0) with false.
    cbv iota.
    set (len := Z.of_nat (length (jobsToDisplay st))).
    assert (Z.to_nat (Z.min (0 * 9) len - Z.max (len + (0 * 9 - 9)) 0) = 0%nat)
      as -> by lia.
    done.
Qed.

Lemma page_out_of_range_is_empty_witness :
  totalPages (handleUnsaveJob "a0"
                (handleUnsaveJob "a1"
                   (handleUnsaveJob "a2" Samples.twelve_saved_page_two))) = 1
  ∧ currentJobsOnPage
      (handleUnsaveJob "a0"
         (handleUnsaveJob "a1"
            (handleUnsaveJob "a2" Samples.twelve_saved_page_two))) = [].
Proof.
  split; [reflexivity|].
  apply page_out_of_range_is_empty. left. by vm_compute.
Defined.

(** X3: a page of [1..totalPages] is never blank; every page but the
    last holds 9 jobs and the last holds the rest. *)
Theorem valid_page_is_filled (st : State) :
  1 ≤ currentPage st ≤ totalPages st →
  currentJobsOnPage st ≠ []
  ∧ (currentPage st < totalPages st →
     length (currentJobsOnPage st) = 9%nat)
  ∧ (currentPage st = totalPages st →
     Z.of_nat (length (currentJobsOnPage st))
     = Z.of_nat (length (jobsToDisplay st)) - 9 * (totalPages st - 1)).
Proof.
  intros Hp. pose proof (totalPages_bounds st) as Hb.
  rewrite currentJobsOnPage_window by lia.
  assert (Hlen : length (take 9 (drop (Z.to_nat ((currentPage st - 1) * 9))
                                      (jobsToDisplay st)))
                 = (9 `min` (length (jobsToDisplay st)
                             - Z.to_nat ((currentPage st - 1) * 9)))%nat).
  { by rewrite length_take, length_drop. }
  split; [|split].
  - intros Hnil. rewrite Hnil in Hlen. change (length (@nil Job)) with 0%nat in Hlen. lia.
  - intros Hlt. rewrite Hlen. lia.
  - intros Heq. rewrite Hlen. lia.
Qed.

Lemma valid_page_is_filled_witness :
  currentJobsOnPage Samples.twelve_saved_page_two ≠ []
  ∧ Z.of_nat (length (currentJobsOnPage Samples.twelve_saved_page_two)) = 3.
Proof.
  assert (Hp : 1 ≤ currentPage Samples.twelve_saved_page_two
                 ≤ totalPages Samples.twelve_saved_page_two)
    by (vm_compute; split; discriminate).
  destruct (valid_page_is_filled _ Hp) as (Hfilled & _ & Hlast).
  split; [exact Hfilled|]. rewrite Hlast; reflexivity.
Defined.

(** X4: with more than one page and the current page in range, the
    pages that the [Pagination] component can request are exactly the
    pages 1 to [totalPages]. *)
Theorem pagination_offers_exactly_valid_pages (currentPage totalPages page : Z) :
  1 ≤ currentPage ≤ totalPages → 1 < totalPages →
  page ∈ Pagination.onPageChange_calls currentPage totalPages
  ↔ 1 ≤ page ≤ totalPages.
Proof.
  intros Hcur Htp. split; [by apply onPageChange_calls_in_range|].
  intros Hpage. unfold Pagination.onPageChange_calls.
  destruct (Z.leb_spec totalPages 1); [lia|].
  rewrite !elem_of_app. right. left.
  unfold Pagination.pageNumbers. apply elem_of_seqZ. lia.
Qed.

Lemma pagination_offers_exactly_valid_pages_witness :
  2 ∈ Pagination.onPageChange_calls 1 3 ↔ 1 ≤ 2 ≤ 3.
Proof. apply pagination_offers_exactly_valid_pages; lia. Defined.

(** ** Job cards *)

(** X5: a card shows the first skills, at most four of them; the
    "+N more" tag appears exactly when skills are left out, and N is
    their number. *)
Theorem job_card_skill_tags (job : Job) :
  JobCard.shown_skills job = take 4 (skills job)
  ∧ (length (JobCard.shown_skills job) ≤ 4)%nat
  ∧ match JobCard.more_skills job with
    | Some n =>
        0 < n
        ∧ Z.of_nat (length (skills job))
          = Z.of_nat (length (JobCard.shown_skills job)) + n
    | None => JobCard.shown_skills job = skills job
    end.
Proof.
  assert (Hshown : JobCard.shown_skills job = take 4 (skills job)).
  { unfold JobCard.shown_skills.
    change (slice 0 4 (skills job)) with (slice 0 (0 + 4) (skills job)).
    by rewrite slice_window by lia. }
  rewrite Hshown. split; [done|]. split; [rewrite length_take; lia|].
  unfold JobCard.more_skills.
  destruct (Z.ltb_spec 4 (Z.of_nat (length (skills job)))).
  - rewrite length_take. lia.
  - apply take_ge. lia.
Qed.

(** ** The save button *)

(** X6: the save button of a card or of the detail view flips whether
    the job counts as saved, whatever the collection holds. *)
Theorem toggle_saved_flips (job : Job) (st : State) :
  isJobSaved (id job) (Wiring.toggle_saved job st)
  = negb (isJobSaved (id job) st).
Proof.
  unfold Wiring.toggle_saved, JobCard.handleSaveToggle.
  destruct (isJobSaved (id job) st) eqn:Hsaved; cbn [negb].
  - apply not_true_is_false. rewrite isJobSaved_elem.
    cbn. unfold unsave_updater.
    intros (other & Hid & Hin%list_elem_of_filter)%list_elem_of_fmap.
    by destruct Hin.
  - apply isJobSaved_elem. cbn. apply save_updater_saved.
Qed.

(** X7: pressing the save button twice on a job that was not saved
    gives back the state as it was; on a job that was saved, the entries
    with its identifier leave their place and the job ends up last. *)
Theorem toggle_saved_twice (job : Job) (st : State) :
  (isJobSaved (id job) st = false →
   Wiring.toggle_saved job (Wiring.toggle_saved job st) = st)
  ∧ (isJobSaved (id job) st = true →
     savedJobs (Wiring.toggle_saved job (Wiring.toggle_saved job st))
     = unsave_updater (id job) (savedJobs st) ++ [job]).
Proof.
  pose proof (toggle_saved_flips job st) as Hflip.
  split; intros Hsaved; rewrite Hsaved in Hflip; cbn [negb] in Hflip.
  - unfold Wiring.toggle_saved at 1. rewrite Hflip.
    unfold Wiring.toggle_saved. rewrite Hsaved.
    unfold JobCard.handleSaveToggle, handleUnsaveJob, handleSaveJob.
    assert (Hfresh : id job ∉ id <$> savedJobs st).
    { rewrite <- isJobSaved_elem. by rewrite Hsaved. }
    destruct st as [js sv sel ld er fl vw op ss pg]. cbn in *.
    unfold setSavedJobs. cbn. f_equal.
    rewrite save_updater_absent by done.
    unfold unsave_updater. rewrite filter_app.
    rewrite filter_cons_False by (by intros []).
    rewrite filter_nil, app_nil_r.
    by apply unsave_updater_absent.
  - unfold Wiring.toggle_saved at 1. rewrite Hflip.
    unfold Wiring.toggle_saved. rewrite Hsaved.
    unfold JobCard.handleSaveToggle. cbn.
    apply save_updater_absent.
    rewrite <- (isJobSaved_elem (id job) (handleUnsaveJob (id job) st)).
    unfold Wiring.toggle_saved, JobCard.handleSaveToggle in Hflip.
    rewrite Hsaved in Hflip. by rewrite Hflip.
Qed.

Lemma toggle_saved_twice_witness :
  Wiring.toggle_saved (Samples.job "c")
    (Wiring.toggle_saved (Samples.job "c") Samples.two_saved)
  = Samples.two_saved
  ∧ savedJobs (Wiring.toggle_saved (Samples.job "a")
                 (Wiring.toggle_saved (Samples.job "a") Samples.two_saved))
    = [Samples.job "b"; Samples.job "a"].
Proof.
  split.
  - apply (proj1 (toggle_saved_twice (Samples.job "c") Samples.two_saved)).
    reflexivity.
  - apply (proj2 (toggle_saved_twice (Samples.job "a") Samples.two_saved)).
    reflexivity.
Defined.

(** ** What searching never does *)

Section AnyRun.
Implicit Types (sys : System) (st : State) (evs : list Event).

Lemma loop_test_savedJobs all added per i st :
  savedJobs (loop_test all added per i st).1 = savedJobs st.
Proof. unfold loop_test. by destruct (JOB_SOURCES !! i). Qed.

Lemma after_findJobs_savedJobs outcome st :
  savedJobs (after_findJobs outcome st).1 = savedJobs st.
Proof.
  destruct outcome as [all|err]; unfold after_findJobs; [|done].
  case_decide; [done|]. by rewrite loop_test_savedJobs.
Qed.

Lemma after_timeout_savedJobs all added per i source st :
  savedJobs (after_timeout all added per i source st).1 = savedJobs st.
Proof. unfold after_timeout. by rewrite loop_test_savedJobs. Qed.

(** The saved collection after one event. *)
Lemma step_savedJobs ev sys sys' :
  step ev sys = Some sys' →
  savedJobs (app sys') =
    match ev with
    | SaveJob job => save_updater job (savedJobs (app sys))
    | UnsaveJob jobId => unsave_updater jobId (savedJobs (app sys))
    | _ => savedJobs (app sys)
    end.
Proof.
  destruct ev as [f|k outcome|k|view|page|job|jobId]; cbn; intros Hstep.
  - by injection Hstep as <-.
  - destruct (activations sys !! k) as [[| |]|]; try done.
    injection Hstep as <-. apply after_findJobs_savedJobs.
  - destruct (activations sys !! k) as [[| |]|]; try done.
    injection Hstep as <-. apply after_timeout_savedJobs.
  - by injection Hstep as <-.
  - by injection Hstep as <-.
  - by injection Hstep as <-.
  - by injection Hstep as <-.
Qed.

Lemma save_updater_NoDup job prev :
  NoDup (id <$> prev) → NoDup (id <$> save_updater job prev).
Proof.
  intros Hunique.
  destruct (decide (id job ∈ id <$> prev)) as [Hin|Hout].
  - by rewrite save_updater_present.
  - rewrite save_updater_absent, fmap_app by done.
    apply NoDup_app. split; [done|]. split; [|apply NoDup_singleton].
    by intros x Hx ->%list_elem_of_singleton.
Qed.

Lemma unsave_updater_NoDup jobId prev :
  NoDup (id <$> prev) → NoDup (id <$> unsave_updater jobId prev).
Proof.
  intros Hunique. eapply sublist_NoDup; [exact Hunique|].
  apply fmap_sublist, sublist_filter.
Qed.
End AnyRun.

(** X8: along every sequence of events (searches, overlapping or not,
    timers, saving, unsaving, navigation) the identifiers of the saved
    jobs stay unique if they were unique to begin with. *)
Theorem saved_ids_stay_unique (evs : list Event) (sys sys' : System) :
  NoDup (id <$> savedJobs (app sys)) →
  run evs sys = Some sys' →
  NoDup (id <$> savedJobs (app sys')).
Proof.
  revert sys. induction evs as [|ev evs IH]; intros sys Hunique Hrun; cbn in Hrun.
  - by injection Hrun as <-.
  - destruct (step ev sys) as [sys1|] eqn:Hstep; [|done].
    apply (IH sys1); [|done].
    rewrite (step_savedJobs _ _ _ Hstep).
    destruct ev; auto using save_updater_NoDup, unsave_updater_NoDup.
Qed.

Lemma saved_ids_stay_unique_witness :
  (λ sys, bool_decide (NoDup (id <$> savedJobs (app sys))))
    <$> run (Samples.overlapping_searches ++ [SaveJob (Samples.job "a")])
            (mounted [Samples.job "a"; Samples.job "b"])
  = Some true.
Proof.
  destruct (run (Samples.overlapping_searches ++ [SaveJob (Samples.job "a")])
              (mounted [Samples.job "a"; Samples.job "b"])) as [sys|] eqn:Hrun;
    [|by vm_compute in Hrun].
  cbn [fmap option_fmap option_map]. f_equal. apply bool_decide_eq_true.
  apply (saved_ids_stay_unique _ _ sys) in Hrun; [exact Hrun|].
  apply (bool_decide_unpack _). vm_compute. exact I.
Defined.

(** X9: searching never touches the saved jobs: along events other than
    saving and unsaving, overlapping searches included, the saved
    collection stays as it was. *)
Theorem searching_keeps_saved_jobs (evs : list Event) (sys sys' : System) :
  Forall (λ ev, match ev with
                | SaveJob _ | UnsaveJob _ => False
                | _ => True
                end) evs →
  run evs sys = Some sys' →
  savedJobs (app sys') = savedJobs (app sys).
Proof.
  revert sys sys'.
  induction evs as [|ev evs IH]; intros sys sys' Hevs Hrun; cbn in Hrun.
  - by injection Hrun as <-.
  - destruct (step ev sys) as [sys1|] eqn:Hstep; [|done].
    apply Forall_cons in Hevs as [Hev Hevs].
    rewrite (IH sys1 sys' Hevs Hrun), (step_savedJobs _ _ _ Hstep).
    by destruct ev.
Qed.

Lemma searching_keeps_saved_jobs_witness :
  (λ sys, savedJobs (app sys))
    <$> run Samples.overlapping_searches
            (mounted [Samples.job "a"; Samples.job "b"])
  = Some [Samples.job "a"; Samples.job "b"].
Proof.
  destruct (run Samples.overlapping_searches
              (mounted [Samples.job "a"; Samples.job "b"])) as [sys|] eqn:Hrun;
    [|by vm_compute in Hrun].
  cbn [fmap option_fmap option_map]. f_equal.
  apply (searching_keeps_saved_jobs Samples.overlapping_searches
           (mounted [Samples.job "a"; Samples.job "b"]) sys); [|exact Hrun].
  repeat constructor.
Defined.

(** ** The loading flag *)

Section LoadingFlag.
Implicit Types (sys : System) (st : State).

Lemma loop_test_loading all added per i st :
  suspended (loop_test all added per i st).2 = true
  ∨ isLoading (loop_test all added per i st).1 = false.
Proof. unfold loop_test. destruct (JOB_SOURCES !! i); cbn; auto. Qed.

Lemma after_findJobs_loading outcome st :
  suspended (after_findJobs outcome st).2 = true
  ∨ isLoading (after_findJobs outcome st).1 = false.
Proof.
  destruct outcome as [all|err]; unfold after_findJobs; [|by right].
  case_decide; [by right|]. apply loop_test_loading.
Qed.

Lemma after_timeout_loading all added per i source st :
  suspended (after_timeout all added per i source st).2 = true
  ∨ isLoading (after_timeout all added per i source st).1 = false.
Proof. unfold after_timeout. apply loop_test_loading. Qed.

Lemma resume_loading k sys r b :
  activations sys !! k = Some b →
  (isLoading (app sys) = true → some_suspended sys) →
  (suspended r.2 = true ∨ isLoading r.1 = false) →
  isLoading (app (resume k sys r)) = true → some_suspended (resume k sys r).
Proof.
  intros Hk _ [Hsusp | Hidle] Hloading; cbn in *; [|congruence].
  exists k, r.2. split; [|done].
  apply list_lookup_insert_eq. by eapply lookup_lt_Some.
Qed.

Lemma step_loading ev sys sys' :
  (isLoading (app sys) = true → some_suspended sys) →
  step ev sys = Some sys' →
  isLoading (app sys') = true → some_suspended sys'.
Proof.
  intros Hinv Hstep.
  destruct ev as [f|k outcome|k|view|page|job|jobId]; cbn in Hstep.
  - injection Hstep as <-. intros _.
    exists (length (activations sys)), (AwaitFindJobs f). cbn.
    split; [|done]. rewrite lookup_app_r by lia.
    by rewrite Nat.sub_diag.
  - destruct (activations sys !! k) as [[g| |]|] eqn:Hk; try done.
    injection Hstep as <-.
    eapply resume_loading; eauto using after_findJobs_loading.
  - destruct (activations sys !! k) as [[|all added per i source|]|] eqn:Hk;
      try done.
    injection Hstep as <-.
    eapply resume_loading; eauto using after_timeout_loading.
  - by injection Hstep as <-.
  - by injection Hstep as <-.
  - by injection Hstep as <-.
  - by injection Hstep as <-.
Qed.

Lemma in_flight_nil_not_suspended sys :
  in_flight sys = [] → ¬ some_suspended sys.
Proof.
  intros Hnil (k & a & Hk & Hsusp).
  assert (Hin : a ∈ in_flight sys).
  { unfold in_flight. apply list_elem_of_filter.
    split; [done|]. by eapply list_elem_of_lookup_2. }
  rewrite Hnil in Hin. by apply elem_of_nil in Hin.
Qed.
End LoadingFlag.

(** X10: the spinner does not hang: after any sequence of events from
    the mounted application, overlapping searches included, [isLoading] is
    false as soon as every activation of [fetchJobs] has returned. *)
Theorem loading_ends_with_the_last_search
    (loaded : list Job) (evs : list Event) (sys : System) :
  run evs (mounted loaded) = Some sys →
  in_flight sys = [] →
  isLoading (app sys) = false.
Proof.
  intros Hrun Hidle.
  assert (Hinv : isLoading (app sys) = true → some_suspended sys).
  { revert Hrun.
    assert (Hstart : isLoading (app (mounted loaded)) = true →
                     some_suspended (mounted loaded)).
    { intros _. by exists 0%nat, (AwaitFindJobs (filters (initial loaded))). }
    revert Hstart. generalize (mounted loaded) as sys0.
    induction evs as [|ev evs IH]; intros sys0 Hstart Hrun; cbn in Hrun.
    - by injection Hrun as <-.
    - destruct (step ev sys0) as [sys1|] eqn:Hstep; [|done].
      eapply IH; [|exact Hrun]. by eapply step_loading. }
  apply not_true_is_false. intros Hloading.
  by apply (in_flight_nil_not_suspended sys Hidle), Hinv.
Qed.

Lemma loading_ends_with_the_last_search_witness :
  (λ sys, isLoading (app sys))
    <$> run Samples.overlapping_searches (mounted []) = Some false.
Proof.
  destruct (run Samples.overlapping_searches (mounted [])) as [sys|] eqn:Hrun;
    [|by vm_compute in Hrun].
  cbn [fmap option_fmap option_map]. f_equal.
  apply (loading_ends_with_the_last_search [] Samples.overlapping_searches sys Hrun).
  pose proof Hrun as Hsys. vm_compute in Hsys. injection Hsys as <-.
  reflexivity.
Defined.

(** ** The reveal, step by step *)

Section Progress.
Implicit Types (all : list Job) (st : State).

Lemma reveal_timeout fuel all added per i source st :
  reveal (S fuel) (AwaitTimeout all added per i source) st
  = let r1 := after_timeout all added per i source st in
    let r2 := reveal fuel r1.2 r1.1 in
    (r2.1.1, r2.1.2, jobsToAdd all added per :: r2.2).
Proof.
  cbn [reveal].
  destruct (after_timeout all added per i source st) as [st1 a1].
  cbn [fst snd]. by destruct (reveal fuel a1 st1) as [[st2 a2] batches].
Qed.

Lemma or_null_source i : or_null (JOB_SOURCES !! i) = JOB_SOURCES !! i.
Proof. by do 5 (destruct i as [|i]; [done|]). Qed.

(** From the iteration [i] of the loop, [k] timers later. *)
Lemma reveal_steps all (k : nat) : ∀ (i : nat) source st,
  let per := Math_ceil_div (Z.of_nat (length all))
                           (Z.of_nat (length JOB_SOURCES)) in
  JOB_SOURCES !! i = Some source →
  (i + k ≤ length JOB_SOURCES)%nat →
  isLoading st = true →
  jobs st = take (Z.to_nat (Z.of_nat i * per)) all →
  scrapingStatus st = mkStatus (take i JOB_SOURCES) (Some source) →
  let r := reveal k (AwaitTimeout all (Z.of_nat i * per) per i source) st in
  jobs r.1.1 = take (Z.to_nat (Z.of_nat (i + k) * per)) all
  ∧ scrapingStatus r.1.1
    = mkStatus (take (i + k) JOB_SOURCES) (JOB_SOURCES !! (i + k)%nat)
  ∧ isLoading r.1.1 = bool_decide (i + k < length JOB_SOURCES)%nat
  ∧ length r.2 = k.
Proof.
  intros i source st per.
  assert (Hper : 0 ≤ per).
  { pose proof (Math_ceil_div_spec (Z.of_nat (length all))
                  (Z.of_nat (length JOB_SOURCES)) ltac:(by cbn)) as Hceil.
    fold per in Hceil. cbn in Hceil. lia. }
  revert i source st.
  induction k as [|k IH]; intros i source st Hsource Hik Hloading Hjobs Hstatus.
  - cbn [reveal fst snd]. rewrite Nat.add_0_r, Hsource.
    apply lookup_lt_Some in Hsource.
    rewrite bool_decide_eq_true_2 by done. done.
  - rewrite reveal_timeout. cbn zeta.
    unfold after_timeout, loop_test.
    replace (Z.of_nat i * per + per) with (Z.of_nat (i + 1) * per) by lia.
    set (st1 := setScrapingStatus _ (setJobs _ st)).
    assert (Hjobs1 : jobs st1 = take (Z.to_nat (Z.of_nat (i + 1) * per)) all).
    { subst st1. cbn. rewrite Hjobs. unfold jobsToAdd.
      rewrite take_app_slice by lia. f_equal. lia. }
    assert (Hstatus1 : scrapingStatus st1
              = mkStatus (take (i + 1) JOB_SOURCES)
                         (JOB_SOURCES !! (i + 1)%nat)).
    { subst st1. cbn. rewrite Hstatus, or_null_source. cbn.
      by rewrite Nat.add_1_r, (take_S_r _ _ _ Hsource). }
    assert (Hloading1 : isLoading st1 = true) by (by subst st1).
    clearbody st1.
    replace (i + S k)%nat with (i + 1 + k)%nat by lia.
    destruct (JOB_SOURCES !! (i + 1)%nat) as [next|] eqn:Hnext.
    + cbn [fst snd].
      destruct (IH (i + 1)%nat next
                  (setScrapingStatus
                     (λ prev, mkStatus (completed prev) (Some next)) st1))
        as (IHjobs & IHstatus & IHloading & IHlen).
      * done.
      * lia.
      * done.
      * done.
      * cbn. by rewrite Hstatus1.
      * rewrite IHjobs, IHstatus, IHloading. cbn [length]. by rewrite IHlen.
    + cbn [fst snd]. rewrite reveal_Returned. cbn [fst snd length].
      apply lookup_ge_None in Hnext.
      assert (k = 0%nat) as -> by lia.
      rewrite Nat.add_0_r. cbn [finally_ setIsLoading jobs scrapingStatus isLoading].
      rewrite Hjobs1, Hstatus1.
      rewrite (proj2 (lookup_ge_None _ _) Hnext).
      rewrite bool_decide_eq_false_2 by lia. done.
Qed.

Lemma reveal_activeView fuel : ∀ a st,
  activeView (reveal fuel a st).1.1 = activeView st.
Proof.
  induction fuel as [|fuel IH]; intros a st; [done|].
  destruct a as [f|all added per i source|]; [done| |done].
  rewrite reveal_timeout. cbn zeta. cbn [fst snd]. rewrite IH.
  unfold after_timeout, loop_test. by destruct (JOB_SOURCES !! (i + 1)%nat).
Qed.

Lemma fetchJobs_alone_activeView fuel currentFilters outcome st :
  activeView (fetchJobs_alone fuel currentFilters outcome st).1.1
  = activeView st.
Proof.
  unfold fetchJobs_alone, fetchJobs. cbn zeta.
  destruct (after_findJobs outcome _) as [st1 a1] eqn:Hafter.
  rewrite reveal_activeView.
  apply (f_equal (λ r, activeView r.1)) in Hafter. cbn in Hafter.
  rewrite <- Hafter. destruct outcome as [all|err]; cbn; [|done].
  by case_decide.
Qed.

Lemma fetchJobs_alone_empty currentFilters st fuel :
  let st' := (fetchJobs_alone fuel currentFilters (Fulfilled []) st).1.1 in
  jobs st' = [] ∧ isLoading st' = false ∧ error st' = None.
Proof.
  unfold fetchJobs_alone. cbn -[reveal].
  case_decide; [|done]. rewrite reveal_Returned. by cbn.
Qed.

Lemma fetchJobs_alone_rejected currentFilters err st fuel :
  let st' := (fetchJobs_alone fuel currentFilters (Rejected err) st).1.1 in
  jobs st' = [] ∧ isLoading st' = false
  ∧ error st' = Some (catch_message err).
Proof.
  unfold fetchJobs_alone. cbn -[reveal]. rewrite reveal_Returned. by cbn.
Qed.
End Progress.

(** X11: while a search on its own reveals a non-empty list, after [k]
    timers ([k] from 0 to 5) the results are the first [k] batches, the
    first [k] sources are completed and the next one is current, and the
    status panel shows [k] check marks, a spinner on the source being
    scanned and circles on the sources to come; loading ends with the
    fifth timer. *)
Theorem reveal_progress
    (all : list Job) (currentFilters : SearchFilters) (st : State) (k : nat) :
  all ≠ [] → (k ≤ 5)%nat →
  let c := Math_ceil_div (Z.of_nat (length all)) 5 in
  let r := fetchJobs_alone k currentFilters (Fulfilled all) st in
  jobs r.1.1 = take (Z.to_nat (Z.of_nat k * c)) all
  ∧ length r.2 = k
  ∧ scrapingStatus r.1.1 = mkStatus (take k JOB_SOURCES) (JOB_SOURCES !! k)
  ∧ isLoading r.1.1 = bool_decide (k < 5)%nat
  ∧ LiveSearchStatus.icons (scrapingStatus r.1.1) JOB_SOURCES
    = replicate k LiveSearchStatus.Check
      ++ (if bool_decide (k < 5)%nat then [LiveSearchStatus.Spinner] else [])
      ++ replicate (4 - k) LiveSearchStatus.Circle.
Proof.
  intros Hne Hk c r.
  assert (Hsteps :
    jobs r.1.1 = take (Z.to_nat (Z.of_nat k * c)) all
    ∧ scrapingStatus r.1.1 = mkStatus (take k JOB_SOURCES) (JOB_SOURCES !! k)
    ∧ isLoading r.1.1 = bool_decide (k < 5)%nat
    ∧ length r.2 = k).
  { subst r. unfold fetchJobs_alone, fetchJobs, after_findJobs.
    destruct (decide (length all = 0%nat)) as [Hlen|_]; [by destruct all|].
    cbn zeta. unfold loop_test. cbn [lookup list_lookup JOB_SOURCES].
    apply (reveal_steps all k 0 "LinkedIn"); [done|cbn; lia|done| |done].
    cbn. by rewrite Z.mul_0_l. }
  destruct Hsteps as (Hjobs & Hstatus & Hloading & Hlen).
  split; [done|]. split; [done|]. split; [done|]. split; [done|].
  rewrite Hstatus.
  do 6 (destruct k as [|k]; [by vm_compute|]). lia.
Qed.

Lemma reveal_progress_witness :
  id <$> jobs (fetchJobs_alone 2 Samples.some_filters
                 (Fulfilled Samples.ten_jobs) (initial [])).1.1
  = ["a0"; "a1"; "a2"; "a3"]%string
  ∧ LiveSearchStatus.icons
      (scrapingStatus (fetchJobs_alone 2 Samples.some_filters
                         (Fulfilled Samples.ten_jobs) (initial [])).1.1)
      JOB_SOURCES
    = [LiveSearchStatus.Check; LiveSearchStatus.Check;
       LiveSearchStatus.Spinner; LiveSearchStatus.Circle;
       LiveSearchStatus.Circle].
Proof.
  assert (Hne : Samples.ten_jobs ≠ []) by discriminate.
  destruct (reveal_progress Samples.ten_jobs Samples.some_filters (initial [])
              2 Hne ltac:(lia)) as (Hjobs & _ & _ & _ & Hicons).
  split; [by rewrite Hjobs | exact Hicons].
Defined.

(** X12: what the search view shows once a search on its own is over:
    never the status panel; after a fetched list, no error, the list as
    results, and the "No jobs found" notice exactly when the list is
    empty; after a failed fetch, no results and the message of the error,
    unless that message is empty, in which case the view shows "No jobs
    found" instead of an error. *)
Theorem search_outcome_rendering
    (fuel : nat) (currentFilters : SearchFilters)
    (outcome : Settled (list Job)) (st : State) :
  (5 ≤ fuel)%nat → activeView st = search →
  let st' := (fetchJobs_alone fuel currentFilters outcome st).1.1 in
  renders_LiveSearchStatus st' = false
  ∧ match outcome with
    | Fulfilled all =>
        jobs st' = all
        ∧ rendered_error st' = None
        ∧ renders_no_jobs_found st' = bool_decide (length all = 0%nat)
    | Rejected err =>
        jobs st' = []
        ∧ rendered_error st'
          = (if bool_decide (catch_message err = "")
             then None else Some (catch_message err))
        ∧ renders_no_jobs_found st' = bool_decide (catch_message err = "")
    end.
Proof.
  intros Hfuel Hview st'.
  pose proof (fetchJobs_alone_activeView fuel currentFilters outcome st)
    as Hview'.
  fold st' in Hview'. rewrite Hview in Hview'.
  unfold renders_LiveSearchStatus, rendered_error, renders_no_jobs_found,
    in_search_view. rewrite Hview'.
  destruct outcome as [all|err].
  - destruct (decide (all = [])) as [->|Hne].
    + destruct (fetchJobs_alone_empty currentFilters st fuel)
        as (Hjobs & Hloading & Herror).
      fold st' in Hjobs, Hloading, Herror.
      by rewrite Hjobs, Hloading, Herror.
    + destruct (fetchJobs_alone_fulfilled all currentFilters st fuel Hne Hfuel)
        as (st1 & Hrun & Hjobs & _ & Hloading & Herror).
      subst st'. rewrite Hrun. cbn [fst snd].
      rewrite Hloading, Herror, Hjobs.
      pose proof (Math_ceil_div_spec (Z.of_nat (length all))
                    (Z.of_nat (length JOB_SOURCES)) ltac:(by cbn)) as Hceil.
      cbn in Hceil.
      rewrite concat_five_batches by (cbn; lia).
      split; [done|]. split; [done|]. split; [done|]. cbn.
      destruct all; [done|]. done.
  - destruct (fetchJobs_alone_rejected currentFilters err st fuel)
      as (Hjobs & Hloading & Herror).
    fold st' in Hjobs, Hloading, Herror.
    rewrite Hjobs, Hloading, Herror. cbn.
    by case_bool_decide.
Qed.

Lemma search_outcome_rendering_witness :
  rendered_error
    (fetchJobs_alone 5 Samples.some_filters
       (Rejected GeminiService.fetch_failure) (initial [])).1.1
  = Some "Failed to fetch job listings from Gemini API."%string
  ∧ renders_no_jobs_found
      (fetchJobs_alone 5 Samples.some_filters
         (Rejected GeminiService.fetch_failure) (initial [])).1.1
    = false.
Proof.
  destruct (search_outcome_rendering 5 Samples.some_filters
              (Rejected GeminiService.fetch_failure) (initial [])
              ltac:(lia) eq_refl) as (_ & _ & Herror & Hnotice).
  split; [exact Herror | exact Hnotice].
Defined.

(** ** The detail view: insights *)

Section Insights.
Import JobDetailModal.
Implicit Types (l : list Insight) (st : JobDetailModal.State).

Lemma update_insight_lookup type f l (k : nat) :
  update_insight type f l !! k
  = (λ i, if decide (i_type i = type) then f i else i) <$> l !! k.
Proof. unfold update_insight. apply list_lookup_fmap. Qed.

(** Updates of two kinds of insight do not see each other. *)
Lemma update_insight_comm type1 type2 f g l :
  type1 ≠ type2 →
  (∀ i, i_type (f i) = i_type i) → (∀ i, i_type (g i) = i_type i) →
  update_insight type1 f (update_insight type2 g l)
  = update_insight type2 g (update_insight type1 f l).
Proof.
  intros Hne Hf Hg. unfold update_insight.
  rewrite <- !list_fmap_compose. apply list_fmap_ext.
  intros _ i _. cbn.
  destruct (decide (i_type i = type1)) as [H1|H1],
           (decide (i_type i = type2)) as [H2|H2];
    rewrite ?Hf, ?Hg; repeat case_decide; congruence.
Qed.
End Insights.

(** X13: asking for one kind of insight, end to end with
    [getJobInsight]: the three insights keep their kinds and order, the
    insights of the other kinds and the rest of the view are untouched,
    and the insight asked for stops loading with the text of the service
    and no error, or, when the service fails, with its previous content
    and the error "Failed to generate insight for the job.". *)
Theorem insight_request_is_local
    (generateContent : string → Settled string) (job : Job)
    (type : InsightType) (st : JobDetailModal.State) :
  let outcome := GeminiService.getJobInsight generateContent job type in
  let st' := JobDetailModal.after_getJobInsight type outcome
               (JobDetailModal.handleFetchInsight type st) in
  JobDetailModal.i_type <$> JobDetailModal.insights st'
  = JobDetailModal.i_type <$> JobDetailModal.insights st
  ∧ JobDetailModal.setInsights (λ _, JobDetailModal.insights st) st' = st
  ∧ (∀ (k : nat) i,
       JobDetailModal.insights st !! k = Some i →
       JobDetailModal.i_type i ≠ type →
       JobDetailModal.insights st' !! k = Some i)
  ∧ (∀ (k : nat) i,
       JobDetailModal.insights st !! k = Some i →
       JobDetailModal.i_type i = type →
       ∃ i',
         JobDetailModal.insights st' !! k = Some i'
         ∧ JobDetailModal.i_isLoading i' = false
         ∧ JobDetailModal.i_title i' = JobDetailModal.i_title i
         ∧ match generateContent (GeminiService.insight_prompt job type) with
           | Fulfilled text =>
               JobDetailModal.content i' = Some text
               ∧ JobDetailModal.i_error i' = None
           | Rejected _ =>
               JobDetailModal.content i' = JobDetailModal.content i
               ∧ JobDetailModal.i_error i'
                 = Some "Failed to generate insight for the job."%string
           end).
Proof.
  intros outcome st'. subst outcome st'.
  unfold GeminiService.getJobInsight.
  destruct (generateContent _) as [text|e];
    cbn [JobDetailModal.after_getJobInsight JobDetailModal.handleFetchInsight
         JobDetailModal.setInsights JobDetailModal.insights message_or
         GeminiService.insight_failure].
  all: split;
    [unfold JobDetailModal.update_insight; rewrite <- !list_fmap_compose;
     apply list_fmap_ext; intros _ i _; cbn; by repeat case_decide|].
  all: split; [destruct st; reflexivity|].
  all: split;
    [intros k i Hk Hi; rewrite !update_insight_lookup, Hk;
     cbn [fmap option_fmap option_map];
     destruct (decide (JobDetailModal.i_type i = type)); [done|];
     by rewrite decide_False by done|].
  all: intros k i Hk Hi; rewrite !update_insight_lookup, Hk;
    cbn [fmap option_fmap option_map];
    destruct (decide (JobDetailModal.i_type i = type)); [|done];
    cbn [JobDetailModal.i_type]; rewrite decide_True by done;
    eexists; split; [reflexivity|]; by cbn.
Qed.

Lemma insight_request_is_local_witness :
  JobDetailModal.insights
    (JobDetailModal.after_getJobInsight SKILLS
       (GeminiService.getJobInsight (λ _, Fulfilled "Python, SQL"%string)
          (Samples.job "a") SKILLS)
       (JobDetailModal.handleFetchInsight SKILLS JobDetailModal.initial))
  !! 0%nat
  = Some (JobDetailModal.mkInsight SUMMARY "Summarize" None false None).
Proof.
  apply (proj1 (proj2 (proj2
           (insight_request_is_local (λ _, Fulfilled "Python, SQL"%string)
              (Samples.job "a") SKILLS JobDetailModal.initial)))
           0%nat); [reflexivity | discriminate].
Defined.

(** X14: two kinds of insight requested together do not interfere: the
    view ends up the same whichever response arrives first, and a request
    for one kind commutes with the arrival of another. *)
Theorem insight_responses_commute
    (type1 type2 : InsightType) (outcome1 outcome2 : Settled string)
    (st : JobDetailModal.State) :
  type1 ≠ type2 →
  JobDetailModal.after_getJobInsight type1 outcome1
    (JobDetailModal.after_getJobInsight type2 outcome2 st)
  = JobDetailModal.after_getJobInsight type2 outcome2
      (JobDetailModal.after_getJobInsight type1 outcome1 st)
  ∧ JobDetailModal.handleFetchInsight type1
      (JobDetailModal.after_getJobInsight type2 outcome2 st)
    = JobDetailModal.after_getJobInsight type2 outcome2
        (JobDetailModal.handleFetchInsight type1 st).
Proof.
  intros Hne.
  split; destruct outcome1, outcome2;
    unfold JobDetailModal.after_getJobInsight, JobDetailModal.handleFetchInsight,
      JobDetailModal.setInsights;
    cbn [JobDetailModal.insights JobDetailModal.activeTab
         JobDetailModal.resumeText JobDetailModal.analysisResult
         JobDetailModal.isAnalyzing JobDetailModal.analysisError
         JobDetailModal.uploadedFile];
    f_equal; by apply update_insight_comm.
Qed.

Lemma insight_responses_commute_witness :
  JobDetailModal.after_getJobInsight SUMMARY (Fulfilled "s"%string)
    (JobDetailModal.after_getJobInsight SKILLS (Rejected OtherValue)
       JobDetailModal.initial)
  = JobDetailModal.after_getJobInsight SKILLS (Rejected OtherValue)
      (JobDetailModal.after_getJobInsight SUMMARY (Fulfilled "s"%string)
         JobDetailModal.initial).
Proof.
  apply (proj1 (insight_responses_commute SUMMARY SKILLS (Fulfilled "s"%string)
                  (Rejected OtherValue) JobDetailModal.initial
                  ltac:(discriminate))).
Defined.

(** ** The detail view: the resume analyzer *)

(** X15: the analysis is requested exactly when there is something to
    analyze. With a blank text and no file the handler does nothing at
    all: no state changes and [analyzeResume] is not called. In every other
    case, and only then, [analyzeResume] is called, with an argument from
    which it can build its parts, so that its error "No resume provided
    for analysis." cannot occur: an uploaded file is sent as inline data
    next to the prompt and the pasted text is then left out, and without a
    file the text is appended to the prompt. *)
Theorem analysis_request_carries_a_resume
    (trim : string → string)
    (generateContent : list GeminiService.Part → Settled string)
    (job : Job) (st : JobDetailModal.State) :
  trim "" = ""%string →
  (JobDetailModal.uploadedFile st = None →
   trim (JobDetailModal.resumeText st) = ""%string →
   JobDetailModal.handleAnalyzeResume trim st = (st, None))
  ∧ match JobDetailModal.handleAnalyzeResume trim st with
    | (st', None) =>
        st' = st
        ∧ JobDetailModal.uploadedFile st = None
        ∧ trim (JobDetailModal.resumeText st) = ""%string
    | (st', Some resume) =>
        (JobDetailModal.uploadedFile st ≠ None
         ∨ trim (JobDetailModal.resumeText st) ≠ ""%string)
        ∧ JobDetailModal.isAnalyzing st' = true
        ∧ JobDetailModal.analysisError st' = None
        ∧ JobDetailModal.analysisResult st' = None
        ∧ GeminiService.analyzeResume generateContent resume job
          ≠ Rejected GeminiService.no_resume
        ∧ GeminiService.resume_parts resume job
          = Some match JobDetailModal.uploadedFile st with
                 | Some uploaded =>
                     [GeminiService.TextPart (GeminiService.promptText job);
                      GeminiService.InlineData
                        (JobDetailModal.mimeType uploaded)
                        (JobDetailModal.data uploaded)]
                 | None =>
                     [GeminiService.TextPart
                        (GeminiService.promptText job +:+ newline +:+ newline
                         +:+ "**User's Resume:**" +:+ newline
                         +:+ JobDetailModal.resumeText st)]
                 end
    end.
Proof.
  intros Htrim. split.
  { intros Hfile Hblank.
    unfold JobDetailModal.handleAnalyzeResume,
      JobDetailModal.nothing_to_analyze.
    by rewrite Hfile, Hblank. }
  unfold JobDetailModal.handleAnalyzeResume, JobDetailModal.nothing_to_analyze.
  destruct (JobDetailModal.uploadedFile st) as [uploaded|] eqn:Hfile.
  - rewrite andb_false_r. cbn.
    unfold GeminiService.analyzeResume. cbn.
    split; [by left|].
    split; [done|]. split; [done|]. split; [done|]. split; [|done].
    by destruct (generateContent _).
  - rewrite andb_true_r. case_bool_decide as Hblank; [done|].
    assert (Htext : JobDetailModal.resumeText st ≠ ""%string).
    { intros Hempty. by rewrite Hempty in Hblank. }
    assert (Hparts :
      GeminiService.resume_parts
        (GeminiService.mkResume (Some (JobDetailModal.resumeText st)) None) job
      = Some [GeminiService.TextPart
                (GeminiService.promptText job +:+ newline +:+ newline
                 +:+ "**User's Resume:**" +:+ newline
                 +:+ JobDetailModal.resumeText st)]).
    { unfold GeminiService.resume_parts, truthy. cbn [GeminiService.r_file
        GeminiService.r_text]. by rewrite bool_decide_eq_false_2. }
    split; [by right|].
    split; [done|]. split; [done|]. split; [done|]. split; [|done].
    unfold GeminiService.analyzeResume. rewrite Hparts.
    by destruct (generateContent _).
Qed.

Lemma analysis_request_carries_a_resume_witness :
  JobDetailModal.handleAnalyzeResume Samples.trim
    (JobDetailModal.setResumeText "   " JobDetailModal.initial)
  = (JobDetailModal.setResumeText "   " JobDetailModal.initial, None)
  ∧ GeminiService.analyzeResume (λ _, Fulfilled "ok"%string)
      (GeminiService.mkResume (Some "my resume"%string) None) (Samples.job "a")
    ≠ Rejected GeminiService.no_resume.
Proof.
  split.
  - apply (proj1 (analysis_request_carries_a_resume Samples.trim
                    (λ _, Fulfilled "ok"%string) (Samples.job "a")
                    (JobDetailModal.setResumeText "   " JobDetailModal.initial)
                    eq_refl)); reflexivity.
  - pose proof (proj2 (analysis_request_carries_a_resume Samples.trim
                  (λ _, Fulfilled "ok"%string) (Samples.job "a")
                  (JobDetailModal.setResumeText "my resume"
                     JobDetailModal.initial) eq_refl)) as Hreq.
    exact (proj1 (proj2 (proj2 (proj2 (proj2 Hreq))))).
Defined.

(** X16: an analysis, end to end with [analyzeResume]: when it is over
    the view is no longer analyzing and shows either the text of the
    service and no error, or no result and the error "Failed to analyze
    resume with Gemini API."; the pasted text and the uploaded file are
    kept. *)
Theorem analysis_outcome
    (trim : string → string)
    (generateContent : list GeminiService.Part → Settled string)
    (job : Job) (st st1 : JobDetailModal.State)
    (resume : GeminiService.Resume) (parts : list GeminiService.Part) :
  JobDetailModal.handleAnalyzeResume trim st = (st1, Some resume) →
  GeminiService.resume_parts resume job = Some parts →
  let st2 := JobDetailModal.after_analyzeResume
               (GeminiService.analyzeResume generateContent resume job) st1 in
  JobDetailModal.isAnalyzing st2 = false
  ∧ JobDetailModal.resumeText st2 = JobDetailModal.resumeText st
  ∧ JobDetailModal.uploadedFile st2 = JobDetailModal.uploadedFile st
  ∧ JobDetailModal.insights st2 = JobDetailModal.insights st
  ∧ match generateContent parts with
    | Fulfilled text =>
        JobDetailModal.analysisResult st2 = Some text
        ∧ JobDetailModal.analysisError st2 = None
    | Rejected _ =>
        JobDetailModal.analysisResult st2 = None
        ∧ JobDetailModal.analysisError st2
          = Some "Failed to analyze resume with Gemini API."%string
    end.
Proof.
  intros Hstart Hparts st2. subst st2.
  unfold JobDetailModal.handleAnalyzeResume in Hstart.
  destruct (JobDetailModal.nothing_to_analyze trim st); [done|].
  injection Hstart as <- _.
  unfold GeminiService.analyzeResume. rewrite Hparts.
  by destruct (generateContent parts).
Qed.

Lemma analysis_outcome_witness :
  JobDetailModal.analysisError
    (JobDetailModal.after_analyzeResume
       (GeminiService.analyzeResume (λ _, Rejected OtherValue)
          (GeminiService.mkResume (Some "my resume"%string) None)
          (Samples.job "a"))
       (JobDetailModal.handleAnalyzeResume Samples.trim
          (JobDetailModal.setResumeText "my resume" JobDetailModal.initial)).1)
  = Some "Failed to analyze resume with Gemini API."%string.
Proof.
  pose proof (analysis_outcome Samples.trim (λ _, Rejected OtherValue)
                (Samples.job "a")
                (JobDetailModal.setResumeText "my resume" JobDetailModal.initial)
                _ _ _ eq_refl eq_refl) as Hout.
  exact (proj2 (proj2 (proj2 (proj2 (proj2 Hout))))).
Defined.

Section Uploads.
Import JobDetailModal.

(** The file types of the modal are allowed ones. *)
Lemma step_allowed ev tab tab' :
  (∀ up, uploadedFile (modal tab) = Some up → mimeType up ∈ allowedMimeTypes) →
  Forall (λ f, file_type f ∈ allowedMimeTypes) (readers tab) →
  JobDetailModal.step ev tab = Some tab' →
  (∀ up, uploadedFile (modal tab') = Some up → mimeType up ∈ allowedMimeTypes)
  ∧ Forall (λ f, file_type f ∈ allowedMimeTypes) (readers tab').
Proof.
  intros Hup Hreaders Hstep.
  destruct ev as [chosen|k dataUrl|k| |text|t| |outcome]; cbn in Hstep.
  - destruct chosen as [file|]; cbn in Hstep.
    + case_bool_decide as Hok; injection Hstep as <-; cbn.
      * split; [done|]. apply Forall_app. split; [done|].
        by apply Forall_singleton.
      * split; [done|]. by rewrite app_nil_r.
    + injection Hstep as <-. cbn. split; [done|]. by rewrite app_nil_r.
  - destruct (readers tab !! k) as [file|] eqn:Hk; [|done].
    injection Hstep as <-. cbn. split.
    + intros up [= <-]. cbn.
      rewrite Forall_lookup in Hreaders. by apply (Hreaders k).
    + by apply Forall_delete.
  - destruct (readers tab !! k) as [file|] eqn:Hk; [|done].
    injection Hstep as <-. cbn. split; [done|].
    by apply Forall_delete.
  - injection Hstep as <-. by cbn.
  - injection Hstep as <-. by cbn.
  - injection Hstep as <-. by cbn.
  - injection Hstep as <-. by cbn.
  - injection Hstep as <-. split; [|done].
    by destruct outcome.
Qed.
End Uploads.

(** X17: whatever the user does in the detail view (choosing files of
    any type, readers finishing in any order or failing, removing the
    file, typing, changing tab or job, analyses ending), a file kept as
    the uploaded resume is a PDF or a DOCX, and so is every file that an
    analysis request carries. *)
Theorem uploaded_file_type_is_allowed
    (trim : string → string) (evs : list JobDetailModal.Event)
    (tab : JobDetailModal.Tab) :
  JobDetailModal.run evs (JobDetailModal.mkTab JobDetailModal.initial [])
  = Some tab →
  (∀ up, JobDetailModal.uploadedFile (JobDetailModal.modal tab) = Some up →
         JobDetailModal.mimeType up ∈ JobDetailModal.allowedMimeTypes)
  ∧ (∀ resume file,
       (JobDetailModal.handleAnalyzeResume trim (JobDetailModal.modal tab)).2
       = Some resume →
       GeminiService.r_file resume = Some file →
       GeminiService.rf_mimeType file ∈ JobDetailModal.allowedMimeTypes).
Proof.
  intros Hrun.
  assert (Hinv :
    (∀ up, JobDetailModal.uploadedFile (JobDetailModal.modal tab) = Some up →
           JobDetailModal.mimeType up ∈ JobDetailModal.allowedMimeTypes)
    ∧ Forall (λ f, JobDetailModal.file_type f ∈ JobDetailModal.allowedMimeTypes)
             (JobDetailModal.readers tab)).
  { revert Hrun.
    assert (Hstart :
      (∀ up, JobDetailModal.uploadedFile
               (JobDetailModal.modal
                  (JobDetailModal.mkTab JobDetailModal.initial [])) = Some up →
             JobDetailModal.mimeType up ∈ JobDetailModal.allowedMimeTypes)
      ∧ Forall (λ f, JobDetailModal.file_type f
                     ∈ JobDetailModal.allowedMimeTypes)
               (JobDetailModal.readers
                  (JobDetailModal.mkTab JobDetailModal.initial []))).
    { split; [done | constructor]. }
    revert Hstart.
    generalize (JobDetailModal.mkTab JobDetailModal.initial []) as tab0.
    induction evs as [|ev evs IH]; intros tab0 [Hup Hreaders] Hrun;
      cbn in Hrun.
    - by injection Hrun as <-.
    - destruct (JobDetailModal.step ev tab0) as [tab1|] eqn:Hstep; [|done].
      eapply IH; [|exact Hrun]. by eapply step_allowed. }
  destruct Hinv as [Hup _]. split; [exact Hup|].
  intros resume file Hreq Hfile.
  unfold JobDetailModal.handleAnalyzeResume in Hreq.
  destruct (JobDetailModal.nothing_to_analyze trim _); [done|].
  cbn in Hreq. injection Hreq as <-.
  destruct (JobDetailModal.uploadedFile (JobDetailModal.modal tab))
    as [up|] eqn:Hfile'; cbn in Hfile; [|done].
  injection Hfile as <-. cbn. by apply Hup.
Qed.

Lemma uploaded_file_type_is_allowed_witness :
  (λ tab, JobDetailModal.uploadedFile (JobDetailModal.modal tab))
    <$> JobDetailModal.run Samples.upload_of_a_pdf
          (JobDetailModal.mkTab JobDetailModal.initial [])
  = Some (Some (JobDetailModal.mkUploaded "cv.pdf" (Some "JVBERi0x"%string)
                  "application/pdf"))
  ∧ "application/pdf"%string ∈ JobDetailModal.allowedMimeTypes.
Proof.
  destruct (JobDetailModal.run Samples.upload_of_a_pdf
              (JobDetailModal.mkTab JobDetailModal.initial []))
    as [tab|] eqn:Hrun; [|by vm_compute in Hrun].
  pose proof (proj1 (uploaded_file_type_is_allowed Samples.trim _ _ Hrun))
    as Hallowed.
  vm_compute in Hrun. injection Hrun as <-.
  split; [reflexivity|].
  exact (Hallowed _ eq_refl).
Defined.

Section DataUrl.
Implicit Types (s header payload : string) (sep : ascii).

Lemma split_cons_inv sep s : ∃ piece pieces, split sep s = piece :: pieces.
Proof.
  destruct s as [|c rest]; cbn; [eauto|].
  destruct (Ascii.eqb c sep); [eauto|].
  destruct (split sep rest); eauto.
Qed.

Lemma split_append sep header payload :
  sep ∉ String.list_ascii_of_string header →
  split sep (header +:+ String sep payload) = header :: split sep payload.
Proof.
  induction header as [|c header IH]; simpl; intros Hsep.
  - destruct (Ascii.eqb_spec sep sep); [done | congruence].
  - 
    apply not_elem_of_cons in Hsep as [Hne Hsep].
    destruct (Ascii.eqb_spec c sep) as [->|_]; [done|].
    by rewrite IH.
Qed.

Lemma split_none sep s :
  sep ∉ String.list_ascii_of_string s → split sep s = [s].
Proof.
  induction s as [|c s IH]; simpl; intros Hsep; [done|].
  apply not_elem_of_cons in Hsep as [Hne Hsep].
  destruct (Ascii.eqb_spec c sep) as [->|_]; [done|].
  by rewrite IH.
Qed.
End DataUrl.

(** X18: when the reader delivers a data URL, the uploaded resume holds
    what stands between the first and the second comma: the whole payload
    when the payload has no comma. A result without any comma leaves the
    data undefined. Either way the name and the type are those of the
    chosen file and the pasted text is cleared. *)
Theorem reader_keeps_the_payload
    (file : JobDetailModal.File) (header payload : string)
    (st : JobDetailModal.State) :
  "," %char ∉ String.list_ascii_of_string header →
  "," %char ∉ String.list_ascii_of_string payload →
  JobDetailModal.reader_onload file (header +:+ "," +:+ payload) st
  = JobDetailModal.setResumeText ""
      (JobDetailModal.setUploadedFile
         (Some (JobDetailModal.mkUploaded (JobDetailModal.file_name file)
                  (Some payload) (JobDetailModal.file_type file))) st)
  ∧ JobDetailModal.data
      <$> JobDetailModal.uploadedFile
            (JobDetailModal.reader_onload file header st)
    = Some None.
Proof.
  intros Hheader Hpayload. unfold JobDetailModal.reader_onload.
  change (header +:+ "," +:+ payload)
    with (header +:+ String "," payload).
  rewrite split_append, !split_none by done. done.
Qed.

Lemma reader_keeps_the_payload_witness :
  JobDetailModal.data
    <$> JobDetailModal.uploadedFile
          (JobDetailModal.reader_onload Samples.pdf
             ("data:application/pdf;base64" +:+ "," +:+ "JVBERi0x")
             JobDetailModal.initial)
  = Some (Some "JVBERi0x"%string).
Proof.
  rewrite (proj1 (reader_keeps_the_payload Samples.pdf
                    "data:application/pdf;base64" "JVBERi0x"
                    JobDetailModal.initial
                    ltac:(apply (bool_decide_unpack _); vm_compute; exact I)
                    ltac:(apply (bool_decide_unpack _); vm_compute; exact I))).
  reflexivity.
Defined.

(** ** Adding a job from a posting *)

(** X19: parsing in the add-job modal. On a blank text nothing is sent
    and the modal asks for a description. Otherwise the text is sent as
    typed, the modal is loading until the answer comes, and afterwards it
    holds either the parsed job and no error, or no parsed job and the
    message of the error. *)
Theorem add_job_parse_outcome
    {J : Type} (trim : string → string)
    (st : AddJobModal.State (J := J)) (outcome : Settled J) :
  match AddJobModal.handleParse trim st with
  | (st1, None) =>
      trim (AddJobModal.jobText st) = ""%string
      ∧ AddJobModal.error st1
        = Some "Please paste a job description first."%string
      ∧ AddJobModal.parsedJob st1 = AddJobModal.parsedJob st
      ∧ AddJobModal.isLoading st1 = AddJobModal.isLoading st
      ∧ AddJobModal.jobText st1 = AddJobModal.jobText st
  | (st1, Some text) =>
      text = AddJobModal.jobText st
      ∧ trim text ≠ ""%string
      ∧ AddJobModal.isLoading st1 = true
      ∧ AddJobModal.parsedJob st1 = None
      ∧ AddJobModal.error st1 = None
      ∧ let st2 := AddJobModal.after_parseJobPosting outcome st1 in
        AddJobModal.isLoading st2 = false
        ∧ AddJobModal.jobText st2 = AddJobModal.jobText st
        ∧ match outcome with
          | Fulfilled job =>
              AddJobModal.parsedJob st2 = Some job
              ∧ AddJobModal.error st2 = None
          | Rejected err =>
              AddJobModal.parsedJob st2 = None
              ∧ AddJobModal.error st2
                = Some (message_or "An unknown error occurred." err)
          end
  end.
Proof.
  unfold AddJobModal.handleParse.
  case_bool_decide as Hblank; [done|].
  cbn. repeat (split; [done|]). by destruct outcome.
Qed.

(** X20: the "Save Job" button of the add-job modal, wired to [App].
    Without a parsed job it changes nothing. With one, the modal is
    cleared and closed, the saved view is shown and holds a job with the
    identifier of the parsed job, appended at the end when the
    identifier is new; the search results are untouched, and so is the
    current page, which is not reset on this change of view. *)
Theorem save_parsed_job_outcome
    (m : AddJobModal.State (J := Job)) (st : State) :
  match AddJobModal.parsedJob m with
  | None => Wiring.save_parsed_job m st = (m, st)
  | Some job =>
      (Wiring.save_parsed_job m st).1 = AddJobModal.initial
      ∧ isAddJobModalOpen (Wiring.save_parsed_job m st).2 = false
      ∧ activeView (Wiring.save_parsed_job m st).2 = saved
      ∧ id job ∈ id <$> jobsToDisplay (Wiring.save_parsed_job m st).2
      ∧ (id job ∉ id <$> savedJobs st →
         jobsToDisplay (Wiring.save_parsed_job m st).2
         = savedJobs st ++ [job])
      ∧ jobs (Wiring.save_parsed_job m st).2 = jobs st
      ∧ currentPage (Wiring.save_parsed_job m st).2 = currentPage st
  end.
Proof.
  unfold Wiring.save_parsed_job, AddJobModal.handleSave.
  destruct (AddJobModal.parsedJob m) as [job|]; [|done].
  cbn. split; [done|]. split; [done|]. split; [done|].
  split; [apply save_updater_saved|].
  split; [apply save_updater_absent|done].
Qed.

Lemma save_parsed_job_outcome_witness :
  jobsToDisplay (Wiring.save_parsed_job Samples.parsed_modal Samples.two_saved).2
  = [Samples.job "a"; Samples.job "b"; Samples.job "u1"].
Proof.
  apply (proj1 (proj2 (proj2 (proj2 (proj2
           (save_parsed_job_outcome Samples.parsed_modal Samples.two_saved)))))).
  apply (bool_decide_unpack _). vm_compute. exact I.
Defined.

Section ObjectSpread.
Import JSON.

Lemma field_app_singleton key k v members :
  field key (members ++ [(k, v)])
  = if decide (k = key) then Some v else field key members.
Proof.
  induction members as [|[k' v'] members IH]; cbn.
  - by case_decide.
  - rewrite IH. by repeat case_decide.
Qed.
End ObjectSpread.

(** X21: [parseJobPosting] gives the job the identifier made on the
    client, whatever the service proposed, and keeps every other field of
    the parsed object. When the request or the parsing fails, the error
    it throws is one of its two own messages: the one about invalid JSON
    exactly when the failure is an [Error] whose message mentions
    "JSON". *)
Theorem parseJobPosting_assigns_fresh_id
    (JSON_parse : string → Settled JSON.value)
    (generateContent : string → Settled string)
    (randomUUID jobPostingText : string) :
  match GeminiService.parseJobPosting JSON_parse generateContent randomUUID
          jobPostingText with
  | Fulfilled job =>
      ∃ jsonString parsedJobData members,
        generateContent jobPostingText = Fulfilled jsonString
        ∧ JSON_parse jsonString = Fulfilled parsedJobData
        ∧ job = JSON.Object members
        ∧ JSON.field "id" members = Some (JSON.Str randomUUID)
        ∧ ∀ key, key ≠ "id"%string →
                 JSON.field key members
                 = JSON.field key (JSON.spread parsedJobData)
  | Rejected thrown =>
      ∃ error,
        (generateContent jobPostingText = Rejected error
         ∨ ∃ jsonString,
             generateContent jobPostingText = Fulfilled jsonString
             ∧ JSON_parse jsonString = Rejected error)
        ∧ thrown
          = match error with
            | ErrorObj message =>
                if includes "JSON" message
                then GeminiService.invalid_json
                else GeminiService.posting_failure
            | OtherValue => GeminiService.posting_failure
            end
  end.
Proof.
  unfold GeminiService.parseJobPosting.
  destruct (generateContent jobPostingText) as [jsonString|error] eqn:Hgen.
  - destruct (JSON_parse jsonString) as [parsedJobData|error] eqn:Hparse.
    + exists jsonString, parsedJobData, (JSON.spread parsedJobData
                                          ++ [("id"%string, JSON.Str randomUUID)]).
      split; [done|]. split; [done|]. split; [done|].
      split.
      * rewrite field_app_singleton. by rewrite decide_True.
      * intros key Hkey. rewrite field_app_singleton.
        by rewrite decide_False.
    + exists error. split; [right; eauto|done].
  - exists error. split; [by left|done].
Qed.

(** Evaluated with the reader of the JSON fragment: an answer that
    proposes the identifier 7 comes back with the client's identifier
    written after it. *)
Lemma parseJobPosting_overrides_proposed_id :
  GeminiService.parseJobPosting JSON.parse Samples.answers_with_id "uuid-1"
    "Engineer wanted"
  = Fulfilled (JSON.Object [("id"%string, JSON.Number 7);
                            ("id"%string, JSON.Str "uuid-1")]).
Proof. by vm_compute. Qed.

Lemma parseJobPosting_assigns_fresh_id_witness :
  JSON.field "id" [("id"%string, JSON.Number 7);
                   ("id"%string, JSON.Str "uuid-1")]
  = Some (JSON.Str "uuid-1").
Proof.
  pose proof (parseJobPosting_assigns_fresh_id JSON.parse
                Samples.answers_with_id "uuid-1" "Engineer wanted") as Hjob.
  rewrite parseJobPosting_overrides_proposed_id in Hjob.
  destruct Hjob as (jsonString & parsed & members & _ & _ & Hobj & Hid & _).
  injection Hobj as <-. exact Hid.
Defined.
